(** * The lookup core of spyll (spyll/hunspell/algo/lookup.py)

    A shallow embedding of [Analyzer] and of the classes next to it
    ([Affixes], [CompoundRule], [CompoundPattern], [WordForm]), and the
    properties of the recognizer proved over it.

    Conventions of the embedding.
    - A Python [str] is a [string]; characters are [ascii], and [upper] is
      upper-casing of the ASCII letters.
    - A Python set of flags is a [list Flag] read through membership.
    - An optional flag of [Aff] is an [option Flag]; Python's truthiness of
      it is [truthy].
    - A call that may raise returns a [result]; a generator is the list of
      the items it yields, and, where its body may raise, a [gen]: the
      items yielded and the exception that ended it, if any.
    - Python's [re], the capitalization helper, the dictionary and
      [permutations.replchars] are taken as parameters of the development
      and instantiated for the closed examples. *)

From Stdlib Require Import List String Ascii Bool Arith Lia.
Import ListNotations.
Open Scope string_scope.
Open Scope list_scope.

Set Implicit Arguments.

(** ** Python strings *)

Module Py.

(** [s[n:]] *)
Fixpoint drop (n : nat) (s : string) : string :=
  match n, s with
  | 0, _ => s
  | S _, EmptyString => EmptyString
  | S n', String _ s' => drop n' s'
  end.

(** [s[:n]] *)
Fixpoint take (n : nat) (s : string) : string :=
  match n, s with
  | 0, _ => EmptyString
  | S _, EmptyString => EmptyString
  | S n', String c s' => String c (take n' s')
  end.

(** [s[-n:]] for [n > 0] *)
Definition last_n (n : nat) (s : string) : string :=
  drop (String.length s - n) s.

(** [s[::-1]] *)
Fixpoint rev_onto (s acc : string) : string :=
  match s with
  | EmptyString => acc
  | String c s' => rev_onto s' (String c acc)
  end.

Definition reversed (s : string) : string := rev_onto s EmptyString.

(** [s.startswith(p)] *)
Fixpoint startswith (s p : string) : bool :=
  match p, s with
  | EmptyString, _ => true
  | String _ _, EmptyString => false
  | String a p', String b s' => Ascii.eqb a b && startswith s' p'
  end.

(** [s.endswith(p)] *)
Definition endswith (s p : string) : bool :=
  (String.length p <=? String.length s)%nat && String.eqb (last_n (String.length p) s) p.

(** [c in s] for a character [c] *)
Fixpoint has_char (c : ascii) (s : string) : bool :=
  match s with
  | EmptyString => false
  | String d s' => Ascii.eqb c d || has_char c s'
  end.

(** [len(set(s))] *)
Fixpoint distinct_chars (s : string) : nat :=
  match s with
  | EmptyString => 0
  | String c s' => if has_char c s' then distinct_chars s' else S (distinct_chars s')
  end.

(** [s.replace(i, o)]: the occurrences of [i] are taken from left to right
    and do not overlap; an empty [i] occurs before every character and at
    the end.  [skip] counts the characters still covered by the occurrence
    replaced last. *)
Fixpoint replace_from (i o : string) (skip : nat) (s : string) : string :=
  match s with
  | EmptyString => EmptyString
  | String c s' =>
      match skip with
      | S k => replace_from i o k s'
      | 0 =>
          if startswith s i
          then o ++ replace_from i o (String.length i - 1) s'
          else String c (replace_from i o 0 s')
      end
  end.

Fixpoint intersperse_before (o s : string) : string :=
  match s with
  | EmptyString => o
  | String c s' => o ++ String c (intersperse_before o s')
  end.

Definition replace (s i o : string) : string :=
  match i with
  | EmptyString => intersperse_before o s
  | String _ _ => replace_from i o 0 s
  end.

(** [s.split(sep)] for a one-character separator *)
Fixpoint split_on (sep : ascii) (s : string) : list string :=
  match s with
  | EmptyString => [EmptyString]
  | String c s' =>
      if Ascii.eqb c sep then EmptyString :: split_on sep s'
      else match split_on sep s' with
           | [] => [String c EmptyString]
           | p :: ps => String c p :: ps
           end
  end.

(** [c.upper()] on one character *)
Definition upper (c : ascii) : ascii :=
  let n := nat_of_ascii c in
  if ((97 <=? n) && (n <=? 122))%nat then ascii_of_nat (n - 32) else c.

(** [c.lower()] on one character *)
Definition lower (c : ascii) : ascii :=
  let n := nat_of_ascii c in
  if ((65 <=? n) && (n <=? 90))%nat then ascii_of_nat (n + 32) else c.

Fixpoint map_chars (f : ascii -> ascii) (s : string) : string :=
  match s with
  | EmptyString => EmptyString
  | String c s' => String (f c) (map_chars f s')
  end.

(** [sorted(l, key=key, reverse=True)]: stable, so that items of equal key
    keep their order. *)
Fixpoint insert_desc {A} (key : A -> nat) (x : A) (l : list A) : list A :=
  match l with
  | [] => [x]
  | y :: l' => if (key x <? key y)%nat then y :: insert_desc key x l' else x :: l
  end.

Definition sorted_desc {A} (key : A -> nat) (l : list A) : list A :=
  fold_right (insert_desc key) [] l.

(** [itertools.product] of the lists [ls] *)
Fixpoint product {A} (ls : list (list A)) : list (list A) :=
  match ls with
  | [] => [[]]
  | l :: ls' => flat_map (fun x => map (cons x) (product ls')) l
  end.

(** [itertools.groupby(l, key)]: runs of consecutive items of equal key *)
Fixpoint groupby {A} (key : A -> string) (l : list A) : list (string * list A) :=
  match l with
  | [] => []
  | x :: l' =>
      match groupby key l' with
      | (k, g) :: gs =>
          if String.eqb (key x) k then (k, x :: g) :: gs
          else (key x, [x]) :: (k, g) :: gs
      | [] => [(key x, [x])]
      end
  end.

End Py.

(** ** Exceptions and generators *)

(** [ReError] is [re.error], what [re.compile] raises on a text that is no
    pattern. *)
Inductive exn := TypeError | IndexError | ValueError | RecursionError | ReError.

Inductive result (A : Type) :=
| Ok (a : A)
| Raise (e : exn).
Arguments Ok {A} a.
Arguments Raise {A} e.

Definition rbind {A B} (r : result A) (f : A -> result B) : result B :=
  match r with
  | Ok a => f a
  | Raise e => Raise e
  end.

Notation "x <- r ;; k" := (rbind r (fun x => k))
  (at level 61, r at next level, right associativity).

Fixpoint mapM {A B} (f : A -> result B) (l : list A) : result (list B) :=
  match l with
  | [] => Ok []
  | x :: l' => y <- f x ;; ys <- mapM f l' ;; Ok (y :: ys)
  end.

(** A generator whose body may raise: what it yields, then how it ends. *)
Record gen (A : Type) := Gen { items : list A; ending : option exn }.
Arguments Gen {A} items ending.

Definition gen_of_list {A} (l : list A) : gen A := Gen l None.

(** [itertools.chain(g1, g2)], and one generator body running after
    another: nothing of [g2] is reached once [g1] has raised. *)
Definition gen_chain {A} (g1 g2 : gen A) : gen A :=
  match ending g1 with
  | Some e => g1
  | None => Gen (items g1 ++ items g2) (ending g2)
  end.

(** [for x in l: yield from f(x)] *)
Fixpoint gen_for {A B} (l : list A) (f : A -> gen B) : gen B :=
  match l with
  | [] => gen_of_list []
  | x :: l' => gen_chain (f x) (gen_for l' f)
  end.

Definition gen_map {A B} (f : A -> B) (g : gen A) : gen B :=
  Gen (map f (items g)) (ending g).

(** [(x for x in g if not bad(x))] where [bad] may raise *)
Fixpoint filter_not {A} (bad : A -> result bool) (l : list A) (e : option exn) : gen A :=
  match l with
  | [] => Gen [] e
  | x :: l' =>
      match bad x with
      | Raise e' => Gen [] (Some e')
      | Ok true => filter_not bad l' e
      | Ok false => let g := filter_not bad l' e in Gen (x :: items g) (ending g)
      end
  end.

Definition gen_filter_not {A} (bad : A -> result bool) (g : gen A) : gen A :=
  filter_not bad (items g) (ending g).

(** [any(g)] for a generator of truthy items *)
Definition any_gen {A} (g : gen A) : result bool :=
  match items g with
  | _ :: _ => Ok true
  | [] => match ending g with
          | None => Ok false
          | Some e => Raise e
          end
  end.

(** [all(found(p) for p in parts)] with [found] possibly raising *)
Fixpoint all_result {A} (found : A -> result bool) (l : list A) : result bool :=
  match l with
  | [] => Ok true
  | x :: l' => b <- found x ;; if b then all_result found l' else Ok false
  end.

(** ** The data of [spyll.hunspell.data] used by the lookup *)

Definition Flag := string.

(** [x in flags] *)
Definition mem (x : Flag) (flags : list Flag) : bool :=
  existsb (String.eqb x) flags.

(** [o in flags] for an optional flag of [Aff]: [None] is in no set *)
Definition mem_opt (o : option Flag) (flags : list Flag) : bool :=
  match o with
  | Some x => mem x flags
  | None => false
  end.

(** Truthiness of an optional flag: neither [None] nor the empty string *)
Definition truthy (o : option Flag) : bool :=
  match o with
  | Some EmptyString => false
  | Some (String _ _) => true
  | None => false
  end.

(** Truthiness of a sequence *)
Definition nonempty {A} (l : list A) : bool :=
  match l with
  | [] => false
  | _ :: _ => true
  end.

(** [data.aff.Prefix] and [data.aff.Suffix] have the same fields. *)
Record Affix := mkAffix {
  a_flag : Flag;
  a_strip : string;
  a_add : string;
  a_condition : string;
  a_crossproduct : bool;
  a_flags : list Flag
}.

(** [data.dic.Word] *)
Record Word := mkWord {
  w_stem : string;
  w_flags : list Flag
}.

Record Aff := mkAff {
  SFX : list (Flag * list Affix);
  PFX : list (Flag * list Affix);
  FORBIDDENWORD : option Flag;
  NOSUGGEST : option Flag;
  KEEPCASE : option Flag;
  NEEDAFFIX : option Flag;
  ONLYINCOMPOUND : option Flag;
  COMPOUNDFLAG : option Flag;
  COMPOUNDBEGIN : option Flag;
  COMPOUNDMIDDLE : option Flag;
  COMPOUNDLAST : option Flag;
  COMPOUNDPERMITFLAG : option Flag;
  COMPOUNDFORBIDFLAG : option Flag;
  COMPOUNDMIN : nat;
  COMPOUNDWORDSMAX : option nat;
  CHECKCOMPOUNDCASE : bool;
  CHECKCOMPOUNDTRIPLE : bool;
  CHECKCOMPOUNDREP : bool;
  CHECKCOMPOUNDPATTERN : list (string * string * option string);
  ICONV : list (string * string);
  REP : list (string * string);
  BREAK : list string;
  COMPOUNDRULE : list string
}.

(** [cap.Cap] *)
Inductive Cap := NO | INIT | ALL | HUH | HUHINIT.

Definition Cap_eqb (a b : Cap) : bool :=
  match a, b with
  | NO, NO | INIT, INIT | ALL, ALL | HUH, HUH | HUHINIT, HUHINIT => true
  | _, _ => false
  end.

Inductive CompoundPos := BEGIN | MIDDLE | END.

Definition CompoundPos_eqb (a b : CompoundPos) : bool :=
  match a, b with
  | BEGIN, BEGIN | MIDDLE, MIDDLE | END, END => true
  | _, _ => false
  end.

(** ** The libraries the lookup calls *)

(** A compiled pattern is kept as its text. *)
Definition Pattern := string.

(** Python's [re], as far as the lookup uses it on patterns built from the
    affix data: [pattern.search(s)] as "there is a match",
    [pattern.sub(repl, s)], the spans [(m.start(1), m.end(1))] of
    [re.finditer(pattern, s)], and [pattern.fullmatch(s)] as "it matches". *)
Record Re := mkRe {
  re_search : Pattern -> string -> bool;
  re_sub : Pattern -> string -> string -> string;
  re_finditer : Pattern -> string -> list (nat * nat);
  re_fullmatch : Pattern -> string -> bool
}.

(** [spyll.hunspell.algo.capitalization] *)
Record Capitalization := mkCapitalization {
  cap_variants : string -> Cap * list string;
  cap_guess : string -> Cap
}.

(** [data.dic]: [homonyms(stem, ignorecase)] *)
Record Dic := mkDic {
  homonyms : string -> bool -> list Word
}.

(** What [permutations.replchars] yields: a [str] or a list of words. *)
Inductive Candidate :=
| CandStr (s : string)
| CandWords (ws : list string).

(** ** [CompoundRule] *)

Definition star_or_question (c : ascii) : bool :=
  Ascii.eqb c "*" || Ascii.eqb c "?".

(** [re.sub(r'[\*\?]', '', text)] *)
Fixpoint without_marks (text : string) : string :=
  match text with
  | EmptyString => EmptyString
  | String c s => if star_or_question c then without_marks s else String c (without_marks s)
  end.

(** [set(s)]: the characters of [s], each once *)
Fixpoint char_set (s : string) : list Flag :=
  match s with
  | EmptyString => []
  | String c s' => if Py.has_char c s' then char_set s' else String c EmptyString :: char_set s'
  end.

(** [re.findall(r'[^*?][*?]?', text)]: a character other than a mark, with
    the mark that follows it if there is one; a mark with nothing before
    it is passed over. *)
Fixpoint rule_parts_from (skip : bool) (text : string) : list string :=
  match text with
  | EmptyString => []
  | String c s =>
      if skip then rule_parts_from false s
      else if star_or_question c then rule_parts_from false s
      else match s with
           | String m _ =>
               if star_or_question m
               then String c (String m EmptyString) :: rule_parts_from true s
               else String c EmptyString :: rule_parts_from false s
           | EmptyString => [String c EmptyString]
           end
  end.

Definition rule_parts (text : string) : list string := rule_parts_from false text.

Record CompoundRule := mkCompoundRule {
  cr_text : string;
  cr_flags : list Flag;
  cr_re : Pattern;
  cr_partial_re : Pattern
}.

(** [re.compile(text)] for a text that [compiles] takes as a pattern;
    [re.error] for another. *)
Definition re_compile (compiles : Pattern -> bool) (text : string) : result Pattern :=
  if compiles text then Ok text else Raise ReError.

(** [CompoundRule.__post_init__]: the text is compiled first, then the
    text of [partial_re] is made, where [functools.reduce] of an empty
    sequence without initial value raises [TypeError], and compiled. *)
Definition CompoundRule_init (compiles : Pattern -> bool) (text : string)
    : result CompoundRule :=
  full <- re_compile compiles text ;;
  match rev (rule_parts text) with
  | [] => Raise TypeError
  | last :: before =>
      partial <- re_compile compiles
                   (fold_left (fun res part : string => (part ++ "(" ++ res ++ ")?")%string)
                              before last) ;;
      Ok (mkCompoundRule text (char_set (without_marks text)) full partial)
  end.

Section WithRe.

Variable re : Re.

Definition relevant_flags (self : CompoundRule) (flag_sets : list (list Flag)) : list (list Flag) :=
  map (fun f => filter (fun x => mem x f) (cr_flags self)) flag_sets.

Definition fullmatch (self : CompoundRule) (flag_sets : list (list Flag)) : bool :=
  existsb (fun fc => re_fullmatch re (cr_re self) (String.concat EmptyString fc))
          (Py.product (relevant_flags self flag_sets)).

Definition partial_match (self : CompoundRule) (flag_sets : list (list Flag)) : bool :=
  existsb (fun fc => re_fullmatch re (cr_partial_re self) (String.concat EmptyString fc))
          (Py.product (relevant_flags self flag_sets)).

End WithRe.

(** ** [WordForm] *)

Record WordForm := mkWordForm {
  text : string;
  stem : string;
  prefix : option Affix;
  suffix : option Affix;
  prefix2 : option Affix;
  suffix2 : option Affix
}.

(** [WordForm(text, stem)] *)
Definition WordForm_base (text stem : string) : WordForm :=
  mkWordForm text stem None None None None.

Definition is_some {A} (o : option A) : bool :=
  match o with
  | Some _ => true
  | None => false
  end.

Definition is_base (self : WordForm) : bool :=
  negb (is_some (suffix self)) && negb (is_some (prefix self)).

Definition affix_flags (self : WordForm) : list Flag :=
  let flags := match prefix self with Some p => a_flags p | None => [] end in
  match suffix self with
  | Some s => flags ++ a_flags s
  | None => flags
  end.

(** [list(filter(None, l))] *)
Fixpoint filter_none {A} (l : list (option A)) : list A :=
  match l with
  | [] => []
  | Some x :: l' => x :: filter_none l'
  | None :: l' => filter_none l'
  end.

Definition all_affixes (self : WordForm) : list Affix :=
  filter_none [prefix2 self; prefix self; suffix self; suffix2 self].

Definition Compound := list WordForm.

(** ** [CompoundPattern] *)

Record CompoundPattern := mkCompoundPattern {
  cp_left : string;
  cp_right : string;
  cp_replacement : option string;
  cp_left_stem : string;
  cp_left_flag : option string;
  cp_right_stem : string;
  cp_right_flag : option string
}.

(** [stem, flag = side.split('/')] when ['/' in side], else [side, None];
    unpacking more than two pieces raises [ValueError]. *)
Definition split_side (side : string) : result (string * option string) :=
  if Py.has_char "/" side then
    match Py.split_on "/" side with
    | [s; f] => Ok (s, Some f)
    | _ => Raise ValueError
    end
  else Ok (side, None).

Definition CompoundPattern_init (row : string * string * option string) : result CompoundPattern :=
  let '(left_side, right_side, replacement) := row in
  l <- split_side left_side ;;
  r <- split_side right_side ;;
  Ok (mkCompoundPattern left_side right_side replacement (fst l) (snd l) (fst r) (snd r)).

(** [CompoundPattern.match]: the flags are not looked at. *)
Definition cp_match (self : CompoundPattern) (left right : WordForm) : bool :=
  Py.endswith (stem left) (cp_left_stem self) && Py.startswith (stem right) (cp_right_stem self).

(** ** [Affixes]: a character trie from surface forms to affix entries *)

Definition Affixes := list (string * list (Affix * Pattern)).

(** [trie[key] = vals] *)
Fixpoint trie_set (trie : Affixes) (key : string) (vals : list (Affix * Pattern)) : Affixes :=
  match trie with
  | [] => [(key, vals)]
  | (k, v) :: trie' =>
      if String.eqb k key then (k, vals) :: trie'
      else (k, v) :: trie_set trie' key vals
  end.

Fixpoint trie_get (trie : Affixes) (key : string) : option (list (Affix * Pattern)) :=
  match trie with
  | [] => None
  | (k, v) :: trie' => if String.eqb k key then Some v else trie_get trie' key
  end.

(** [trie.prefixes(key)]: the stored keys that are prefixes of [key], from
    the shortest to the longest, with their values. *)
Definition trie_prefixes (trie : Affixes) (key : string) : list (string * list (Affix * Pattern)) :=
  flat_map (fun n => match trie_get trie (Py.take n key) with
                     | Some v => [(Py.take n key, v)]
                     | None => []
                     end)
           (seq 0 (S (String.length key))).

(** [Affixes.lookup] *)
Definition Affixes_lookup (self : Affixes) (prefix : string) : list (Affix * Pattern) :=
  flat_map snd (trie_prefixes self prefix).

(** ** [Analyzer.compile] *)

(** The length, after a ['['], of the longest run of characters other than
    a newline that ends in [']'] and holds at least one character before
    it: the greedy match of [.+\]]. *)
Fixpoint bracket_end (s : string) (pos : nat) (best : option nat) : option nat :=
  match s with
  | EmptyString => best
  | String c s' =>
      if Ascii.eqb c "010" then best
      else bracket_end s' (S pos)
             (if Ascii.eqb c "]" && (1 <=? pos)%nat then Some (S pos) else best)
  end.

(** [re.findall(r'(\[.+\]|[^\[])', condition)] *)
Fixpoint cond_parts_from (skip : nat) (condition : string) : list string :=
  match condition with
  | EmptyString => []
  | String c s =>
      match skip with
      | S k => cond_parts_from k s
      | 0 =>
          if Ascii.eqb c "["
          then match bracket_end s 0 None with
               | Some k => String c (Py.take k s) :: cond_parts_from k s
               | None => cond_parts_from 0 s
               end
          else String c EmptyString :: cond_parts_from 0 s
      end
  end.

Definition cond_parts_of (condition : string) : list string := cond_parts_from 0 condition.

Definition is_dot_only (parts : list string) : bool :=
  match parts with
  | [p] => String.eqb p "."
  | _ => false
  end.

Definition suffix_regexp (suffix : Affix) : Pattern :=
  let cond_parts := cond_parts_of (a_condition suffix) in
  let cond_parts :=
    match a_strip suffix with
    | EmptyString => cond_parts
    | String _ _ => firstn (List.length cond_parts - String.length (a_strip suffix)) cond_parts
    end in
  let cond :=
    if nonempty cond_parts && negb (is_dot_only cond_parts)
    then ("(?<=" ++ String.concat EmptyString cond_parts ++ ")")%string
    else EmptyString in
  (cond ++ a_add suffix ++ "$")%string.

Definition prefix_regexp (prefix : Affix) : Pattern :=
  let cond_parts := cond_parts_of (a_condition prefix) in
  let cond_parts := skipn (String.length (a_strip prefix)) cond_parts in
  let cond :=
    if nonempty cond_parts && negb (is_dot_only cond_parts)
    then ("(?=" ++ String.concat EmptyString cond_parts ++ ")")%string
    else EmptyString in
  ("^" ++ a_add prefix ++ cond)%string.

(** [itertools.chain.from_iterable(table.values())] *)
Definition all_values (table : list (Flag * list Affix)) : list Affix :=
  flat_map snd table.

Definition compile_suffixes (aff : Aff) : Affixes :=
  fold_left (fun trie '(add, sufs) =>
               trie_set trie add (map (fun suf => (suf, suffix_regexp suf)) sufs))
            (Py.groupby (fun suf => Py.reversed (a_add suf)) (all_values (SFX aff)))
            [].

Definition compile_prefixes (aff : Aff) : Affixes :=
  fold_left (fun trie '(add, prefs) =>
               trie_set trie add (map (fun pref => (pref, prefix_regexp pref)) prefs))
            (Py.groupby (fun pref => a_add pref) (all_values (PFX aff)))
            [].

Definition break_pattern (pat : string) : Pattern :=
  if Py.startswith pat "^" || Py.endswith pat "$"
  then ("(" ++ pat ++ ")")%string
  else (".(" ++ pat ++ ").")%string.

Record Analyzer := mkAnalyzer {
  aff : Aff;
  dic : Dic;
  suffixes : Affixes;
  prefixes : Affixes;
  compoundrules : list CompoundRule;
  compoundpatterns : list CompoundPattern;
  breakpatterns : list Pattern
}.

(** [Analyzer.__init__], which runs [compile]: the patterns of the
    suffixes are compiled, then those of the prefixes, the compound rules
    and the compound patterns are built, and the break patterns are
    compiled; the first text that does not compile, or rule or pattern that
    cannot be built, raises. *)
Definition Analyzer_init (compiles : Pattern -> bool) (aff : Aff) (dic : Dic)
    : result Analyzer :=
  _ <- mapM (re_compile compiles) (map suffix_regexp (all_values (SFX aff))) ;;
  _ <- mapM (re_compile compiles) (map prefix_regexp (all_values (PFX aff))) ;;
  rules <- mapM (CompoundRule_init compiles) (COMPOUNDRULE aff) ;;
  patterns <- mapM CompoundPattern_init (CHECKCOMPOUNDPATTERN aff) ;;
  breaks <- mapM (re_compile compiles) (map break_pattern (BREAK aff)) ;;
  Ok (mkAnalyzer aff dic
        (compile_suffixes aff)
        (compile_prefixes aff)
        rules
        patterns
        breaks).

(** ** The methods of [Analyzer] *)

Section Methods.

Variable re : Re.
Variable cap : Capitalization.
(** [permutations.replchars] *)
Variable replchars : string -> list (string * string) -> list Candidate.
Variable self : Analyzer.

Definition have_compatible_flags
    (dictionary_word : Word) (form : WordForm)
    (compoundpos : option CompoundPos) (captype : Cap) (allow_nosuggest : bool) : bool :=
  let aff := aff self in
  let all_flags := w_flags dictionary_word ++ affix_flags form in
  if negb allow_nosuggest && mem_opt (NOSUGGEST aff) (w_flags dictionary_word) then false
  else if truthy (KEEPCASE aff) && mem_opt (KEEPCASE aff) (w_flags dictionary_word)
          && negb (Cap_eqb captype (cap_guess cap (w_stem dictionary_word))) then false
  else if truthy (NEEDAFFIX aff)
          && (let affixes := all_affixes form in
              (mem_opt (NEEDAFFIX aff) (w_flags dictionary_word) && negb (nonempty affixes))
              || (nonempty affixes
                  && forallb (fun a => mem_opt (NEEDAFFIX aff) (a_flags a)) affixes)) then false
  else if match prefix form with
          | Some p => negb (mem (a_flag p) all_flags)
          | None => false
          end then false
  else if match suffix form with
          | Some s => negb (mem (a_flag s) all_flags)
          | None => false
          end then false
  else match compoundpos with
       | None => negb (mem_opt (ONLYINCOMPOUND aff) all_flags)
       | Some pos =>
           if mem_opt (COMPOUNDFLAG aff) all_flags then true
           else match pos with
                | BEGIN => mem_opt (COMPOUNDBEGIN aff) all_flags
                | END => mem_opt (COMPOUNDLAST aff) all_flags
                | MIDDLE => mem_opt (COMPOUNDMIDDLE aff) all_flags
                end
       end.

(** *** Affixes *)

Definition good_suffix (required_flags forbidden_flags : list (option Flag))
    (crossproduct : bool) (sfx : Affix) : bool :=
  (negb crossproduct || a_crossproduct sfx)
  && forallb (fun f => mem_opt f (a_flags sfx)) required_flags
  && forallb (fun f => negb (mem_opt f (a_flags sfx))) forbidden_flags.

(** [desuffix]; the call it makes on itself passes [nested=True], so one
    level of recursion is all there is: [levels] counts it. *)
Fixpoint desuffix_levels (levels : nat) (word : string)
    (required_flags forbidden_flags : list (option Flag))
    (nested crossproduct : bool) : list WordForm :=
  let possible_suffixes :=
    filter (fun sr => good_suffix required_flags forbidden_flags crossproduct (fst sr)
                      && re_search re (snd sr) word)
           (Affixes_lookup (suffixes self) (Py.reversed word)) in
  flat_map
    (fun sr =>
       let sfx := fst sr in
       let stem0 := re_sub re (snd sr) (a_strip sfx) word in
       mkWordForm word stem0 None (Some sfx) None None ::
       (if nested then []
        else match levels with
             | 0 => []
             | S levels' =>
                 map (fun form2 =>
                        mkWordForm word (stem form2) (prefix form2) (suffix form2)
                                   (prefix2 form2) (Some sfx))
                     (desuffix_levels levels' stem0
                        (Some (a_flag sfx) :: required_flags) forbidden_flags
                        true crossproduct)
             end))
    possible_suffixes.

Definition desuffix := desuffix_levels 1.

Definition good_prefix (required_flags forbidden_flags : list (option Flag))
    (pfx : Affix) : bool :=
  forallb (fun f => mem_opt f (a_flags pfx)) required_flags
  && forallb (fun f => negb (mem_opt f (a_flags pfx))) forbidden_flags.

Fixpoint deprefix_levels (levels : nat) (word : string)
    (required_flags forbidden_flags : list (option Flag))
    (nested : bool) : list WordForm :=
  let possible_prefixes :=
    filter (fun pr => good_prefix required_flags forbidden_flags (fst pr)
                      && re_search re (snd pr) word)
           (Affixes_lookup (prefixes self) word) in
  flat_map
    (fun pr =>
       let pfx := fst pr in
       let stem0 := re_sub re (snd pr) (a_strip pfx) word in
       mkWordForm word stem0 (Some pfx) None None None ::
       (if nested then []
        else match levels with
             | 0 => []
             | S levels' =>
                 map (fun form2 =>
                        mkWordForm word (stem form2) (prefix form2) (suffix form2)
                                   (Some pfx) (suffix2 form2))
                     (deprefix_levels levels' stem0
                        (Some (a_flag pfx) :: required_flags) forbidden_flags
                        true)
             end))
    possible_prefixes.

Definition deprefix := deprefix_levels 1.

(** [form.prefix.crossproduct]; every form of [deprefix] has its prefix. *)
Definition prefix_crossproduct (form : WordForm) : bool :=
  match prefix form with
  | Some p => a_crossproduct p
  | None => false
  end.

Definition try_affix_forms (word : string) (compoundpos : option CompoundPos) : list WordForm :=
  let aff := aff self in
  let suffix_allowed :=
    match compoundpos with
    | Some pos => CompoundPos_eqb pos END || truthy (COMPOUNDPERMITFLAG aff)
    | None => true
    end in
  let prefix_allowed :=
    match compoundpos with
    | Some pos => CompoundPos_eqb pos BEGIN || truthy (COMPOUNDPERMITFLAG aff)
    | None => true
    end in
  let prefix_required_flags :=
    match compoundpos with
    | Some pos => if CompoundPos_eqb pos BEGIN then [] else [COMPOUNDPERMITFLAG aff]
    | None => []
    end in
  let suffix_required_flags :=
    match compoundpos with
    | Some pos => if CompoundPos_eqb pos END then [] else [COMPOUNDPERMITFLAG aff]
    | None => []
    end in
  let forbidden_flags :=
    match compoundpos with
    | Some _ => if truthy (COMPOUNDFORBIDFLAG aff) then [COMPOUNDFORBIDFLAG aff] else []
    | None => []
    end in
  WordForm_base word word
  :: (if suffix_allowed
      then desuffix word suffix_required_flags forbidden_flags false false
      else [])
  ++ (if prefix_allowed
      then flat_map
             (fun form =>
                form ::
                (if suffix_allowed && prefix_crossproduct form
                 then map (fun form2 =>
                             mkWordForm (text form2) (stem form2) (prefix form)
                                        (suffix form2) (prefix2 form2) (suffix2 form2))
                          (desuffix (stem form) suffix_required_flags forbidden_flags
                                    false true)
                 else []))
             (deprefix word prefix_required_flags forbidden_flags false)
      else []).

(** *** [word_forms] *)

(** The first loop over the homonyms of a form: the flag [found] and what
    is yielded. *)
Fixpoint exact_loop (ws : list Word) (form : WordForm)
    (captype : Cap) (compoundpos : option CompoundPos) (allow_nosuggest : bool)
    (found : bool) : bool * list WordForm :=
  match ws with
  | [] => (found, [])
  | w :: ws' =>
      if have_compatible_flags w form compoundpos captype allow_nosuggest
      then let r := exact_loop ws' form captype compoundpos allow_nosuggest true in
           (fst r, form :: snd r)
      else exact_loop ws' form captype compoundpos allow_nosuggest found
  end.

(** The second loop, over the homonyms found ignoring case. *)
Fixpoint ignorecase_loop (ws : list Word) (form : WordForm)
    (captype : Cap) (compoundpos : option CompoundPos) (allow_nosuggest : bool)
    : list WordForm :=
  match ws with
  | [] => []
  | w :: ws' =>
      if negb (Cap_eqb captype ALL) && negb (Cap_eqb (cap_guess cap (w_stem w)) NO)
      then ignorecase_loop ws' form captype compoundpos allow_nosuggest
      else if have_compatible_flags w form compoundpos captype allow_nosuggest
      then form :: ignorecase_loop ws' form captype compoundpos allow_nosuggest
      else ignorecase_loop ws' form captype compoundpos allow_nosuggest
  end.

(** What one turn of the loop of [word_forms] yields when it does not
    return. *)
Definition form_yields (form : WordForm)
    (captype : Cap) (compoundpos : option CompoundPos) (allow_nosuggest : bool)
    : list WordForm :=
  let r := exact_loop (homonyms (dic self) (stem form) false) form
                      captype compoundpos allow_nosuggest false in
  snd r ++
  (if negb (fst r)
   then ignorecase_loop (homonyms (dic self) (stem form) true) form
                        captype compoundpos allow_nosuggest
   else []).

(** The test that makes [word_forms] return. *)
Definition forbidden_stop (form : WordForm) (compoundpos : option CompoundPos) : bool :=
  (is_some compoundpos || negb (is_base form))
  && existsb (fun dword => mem_opt (FORBIDDENWORD (aff self)) (w_flags dword))
             (homonyms (dic self) (stem form) false).

Fixpoint word_forms_loop (forms : list WordForm)
    (captype : Cap) (compoundpos : option CompoundPos) (allow_nosuggest : bool)
    : list WordForm :=
  match forms with
  | [] => []
  | form :: forms' =>
      if forbidden_stop form compoundpos then []
      else form_yields form captype compoundpos allow_nosuggest
           ++ word_forms_loop forms' captype compoundpos allow_nosuggest
  end.

Definition word_forms (word : string)
    (captype : Cap) (compoundpos : option CompoundPos) (allow_nosuggest : bool)
    : list WordForm :=
  word_forms_loop (try_affix_forms word compoundpos) captype compoundpos allow_nosuggest.

(** *** Compounding *)

Definition words_max_reached (prev_parts : nat) : bool :=
  match COMPOUNDWORDSMAX (aff self) with
  | Some (S m) => (S m <=? prev_parts)%nat
  | Some 0 => false
  | None => false
  end.

(** The test that ends a compound search before it splits [word_rest]. *)
Definition stop_splitting (word_rest : string) (prev_parts : nat) : bool :=
  (String.length word_rest <? COMPOUNDMIN (aff self) * 2)%nat
  || words_max_reached prev_parts.

(** [range(aff.COMPOUNDMIN, len(word_rest) - aff.COMPOUNDMIN + 1)] *)
Definition split_positions (word_rest : string) : list nat :=
  seq (COMPOUNDMIN (aff self))
      (String.length word_rest - COMPOUNDMIN (aff self) + 1 - COMPOUNDMIN (aff self)).

(** [compound_parts_by_flags].  The recursion is on [fuel], the number of
    nested calls still allowed; a call with none left ends in
    [RecursionError]. *)
Fixpoint compound_parts_by_flags (fuel : nat) (word_rest : string)
    (prev_parts : list WordForm) (allow_nosuggest : bool) : gen (list WordForm) :=
  match fuel with
  | 0 => Gen [] (Some RecursionError)
  | S fuel' =>
      let whole :=
        if nonempty prev_parts
        then map (fun form => [form]) (word_forms word_rest NO (Some END) allow_nosuggest)
        else [] in
      if stop_splitting word_rest (List.length prev_parts)
      then gen_of_list whole
      else
        let compoundpos := if nonempty prev_parts then MIDDLE else BEGIN in
        gen_chain (gen_of_list whole)
          (gen_for (split_positions word_rest) (fun pos =>
             let beg := Py.take pos word_rest in
             gen_for (word_forms beg NO (Some compoundpos) allow_nosuggest) (fun form =>
               let parts := prev_parts ++ [form] in
               gen_map (fun rest => form :: rest)
                 (compound_parts_by_flags fuel' (Py.drop pos word_rest) parts
                                          allow_nosuggest))))
  end.

(** [compound_parts_by_rules]; the call on itself passes [rules], not the
    rules kept in [compoundrules], and no [allow_nosuggest]. *)
Fixpoint compound_parts_by_rules (fuel : nat) (word_rest : string)
    (prev_parts : list Word) (rules : list CompoundRule) (allow_nosuggest : bool)
    : gen (list WordForm) :=
  match fuel with
  | 0 => Gen [] (Some RecursionError)
  | S fuel' =>
      let whole :=
        if nonempty prev_parts
        then flat_map
               (fun homonym =>
                  let parts := prev_parts ++ [homonym] in
                  let flag_sets := map w_flags parts in
                  if existsb (fun r => fullmatch re r flag_sets) rules
                  then [[WordForm_base word_rest word_rest]]
                  else [])
               (homonyms (dic self) word_rest false)
        else [] in
      if stop_splitting word_rest (List.length prev_parts)
      then gen_of_list whole
      else
        gen_chain (gen_of_list whole)
          (gen_for (split_positions word_rest) (fun pos =>
             let beg := Py.take pos word_rest in
             gen_for (homonyms (dic self) beg false) (fun homonym =>
               let parts := prev_parts ++ [homonym] in
               let flag_sets := map w_flags parts in
               let compoundrules := filter (fun r => partial_match re r flag_sets) rules in
               if nonempty compoundrules
               then gen_map (fun rest => WordForm_base beg beg :: rest)
                      (compound_parts_by_rules fuel' (Py.drop pos word_rest) parts rules
                                               true)
               else gen_of_list [])))
  end.

(** Nested calls each shorten [word_rest] or, when [COMPOUNDMIN] is 0,
    lengthen [prev_parts]; this many are enough unless the recursion never
    ends.  The recursion limit of the interpreter, which ends a search
    nested deeper than it allows with the same [RecursionError], is not
    modelled. *)
Definition compound_fuel (word : string) : nat :=
  String.length word
  + match COMPOUNDWORDSMAX (aff self) with Some m => m | None => 0 end
  + 2.

(** *** [bad_compound], the function local to [compound_parts] *)

(** [s[-1]] *)
Fixpoint last_char (s : string) : option ascii :=
  match s with
  | EmptyString => None
  | String c EmptyString => Some c
  | String _ s' => last_char s'
  end.

Definition forbid_check (left_paradigm : WordForm) : bool :=
  truthy (COMPOUNDFORBIDFLAG (aff self))
  && existsb (fun dword => mem_opt (COMPOUNDFORBIDFLAG (aff self)) (w_flags dword))
             (homonyms (dic self) (text left_paradigm) false).

Definition rep_check (left_text right_text : string) : bool :=
  CHECKCOMPOUNDREP (aff self)
  && existsb (fun candidate =>
                match candidate with
                | CandStr s => nonempty (word_forms s NO None true)
                | CandWords _ => false
                end)
             (replchars (left_text ++ right_text) (REP (aff self))).

Definition triple_check (left_text right_text : string) : bool :=
  CHECKCOMPOUNDTRIPLE (aff self)
  && ((Py.distinct_chars (Py.last_n 2 left_text ++ Py.take 1 right_text) =? 1)%nat
      || (Py.distinct_chars (Py.last_n 1 left_text ++ Py.take 2 right_text) =? 1)%nat).

Definition case_check (left_text right_text : string) : result bool :=
  if CHECKCOMPOUNDCASE (aff self) then
    match right_text, last_char left_text with
    | String r _, Some l =>
        Ok ((Ascii.eqb r (Py.upper r) || Ascii.eqb l (Py.upper l))
            && negb (Ascii.eqb r "-") && negb (Ascii.eqb l "-"))
    | _, _ => Raise IndexError
    end
  else Ok false.

Definition pattern_check (left_paradigm right_paradigm : WordForm) : bool :=
  nonempty (CHECKCOMPOUNDPATTERN (aff self))
  && existsb (fun rule => cp_match rule left_paradigm right_paradigm) (compoundpatterns self).

(** The body of the inner loop: [Ok true] when it returns [True]. *)
Definition check_pair (left_paradigm right_paradigm : WordForm) : result bool :=
  let left_text := text left_paradigm in
  let right_text := text right_paradigm in
  if rep_check left_text right_text then Ok true
  else if triple_check left_text right_text then Ok true
  else b <- case_check left_text right_text ;;
       if b then Ok true
       else Ok (pattern_check left_paradigm right_paradigm).

Fixpoint inner_loop (left_paradigm : WordForm) (rights : list WordForm) : result bool :=
  match rights with
  | [] => Ok false
  | right_paradigm :: rights' =>
      b <- check_pair left_paradigm right_paradigm ;;
      if b then Ok true else inner_loop left_paradigm rights'
  end.

Fixpoint outer_loop (lefts : list WordForm) (compound : Compound) : result bool :=
  match lefts with
  | [] => Ok false
  | left_paradigm :: lefts' =>
      if forbid_check left_paradigm then Ok true
      else b <- inner_loop left_paradigm (tl compound) ;;
           if b then Ok true else outer_loop lefts' compound
  end.

(** [compound[:-1]] is [removelast compound], [compound[1:]] is
    [tl compound]. *)
Definition bad_compound (compound : Compound) : result bool :=
  outer_loop (removelast compound) compound.

Definition compound_parts (word : string) (allow_nosuggest : bool) : gen Compound :=
  let aff := aff self in
  let by_flags :=
    if truthy (COMPOUNDBEGIN aff) || truthy (COMPOUNDFLAG aff)
    then compound_parts_by_flags (compound_fuel word) word [] allow_nosuggest
    else gen_of_list [] in
  let by_rules :=
    if nonempty (compoundrules self)
    then compound_parts_by_rules (compound_fuel word) word [] (compoundrules self)
                                 allow_nosuggest
    else gen_of_list [] in
  gen_filter_not bad_compound (gen_chain by_flags by_rules).

(** *** [analyze] and [lookup] *)

(** What [analyze] yields: a [WordForm] or a [Compound]. *)
Inductive Analysis :=
| AForm (form : WordForm)
| ACompound (compound : Compound).

Definition analyze_internal (variant : string) (captype : Cap) (allow_nosuggest : bool)
    : gen Analysis :=
  gen_chain (gen_of_list (map AForm (word_forms variant captype None allow_nosuggest)))
            (gen_map ACompound (compound_parts variant allow_nosuggest)).

(** [analyze].  Without [capitalization] it calls [analyze_internal(word)],
    one argument short of the two the function takes: [TypeError]. *)
Definition analyze (word : string) (capitalization allow_nosuggest : bool)
    : result (gen Analysis) :=
  if capitalization then
    let '(captype, variants) := cap_variants cap word in
    Ok (gen_for variants (fun v => analyze_internal v captype allow_nosuggest))
  else Raise TypeError.

Definition is_found (capitalization allow_nosuggest : bool) (variant : string) : result bool :=
  g <- analyze variant capitalization allow_nosuggest ;; any_gen g.

(** [try_break] stops at [depth > 10]: [levels] is [11 - depth], the
    depths still open. *)
Fixpoint try_break_levels (levels : nat) (text : string) : list (list string) :=
  match levels with
  | 0 => []
  | S levels' =>
      [text] ::
      flat_map (fun pat =>
        flat_map (fun m =>
          let start := Py.take (fst m) text in
          let rest := Py.drop (snd m) text in
          map (fun breaking => start :: breaking) (try_break_levels levels' rest))
          (re_finditer re pat text))
        (breakpatterns self)
  end.

Definition try_break (text : string) (depth : nat) : list (list string) :=
  try_break_levels (11 - depth) text.

(** [if part] *)
Definition nonempty_str (s : string) : bool :=
  match s with
  | EmptyString => false
  | String _ _ => true
  end.

(** The loop over the splittings at the end of [lookup]. *)
Fixpoint break_loop (capitalization allow_nosuggest : bool)
    (splittings : list (list string)) : result bool :=
  match splittings with
  | [] => Ok false
  | parts :: splittings' =>
      b <- all_result (is_found capitalization allow_nosuggest) (filter nonempty_str parts) ;;
      if b then Ok true else break_loop capitalization allow_nosuggest splittings'
  end.

Definition forbidden_shortcut (word : string) : bool :=
  truthy (FORBIDDENWORD (aff self))
  && nonempty (homonyms (dic self) word false)
  && forallb (fun w => mem_opt (FORBIDDENWORD (aff self)) (w_flags w))
             (homonyms (dic self) word false).

(** The loop over [sorted(self.aff.ICONV, ...)] in [lookup] *)
Definition apply_iconv (word : string) : string :=
  fold_left (fun word io => Py.replace word (fst io) (snd io))
            (Py.sorted_desc (fun io => String.length (snd io)) (ICONV (aff self)))
            word.

Definition lookup (word : string) (capitalization allow_nosuggest : bool) : result bool :=
  if forbidden_shortcut word then Ok false
  else
    let word := apply_iconv word in
    b <- is_found capitalization allow_nosuggest word ;;
    if b then Ok true
    else break_loop capitalization allow_nosuggest (try_break word 0).

(** *** What the properties of the break search are stated with *)

(** A first part and then, as often as the text was broken, the text
    dropped at the break and the part after it: the text they make
    together. *)
Fixpoint weave (first : string) (more : list (string * string)) : string :=
  match more with
  | [] => first
  | (dropped, part) :: more' => first ++ dropped ++ weave part more'
  end.

(** The parts of a weave, in order. *)
Definition woven_parts (first : string) (more : list (string * string)) : list string :=
  first :: map snd more.

(** A text broken as [try_break] breaks it: not at all, or at a match [m]
    of a break pattern in it, which leaves [text[:m.start(1)]] as the first
    part, drops [text[m.start(1):m.end(1)]], the text group 1 matched, and
    breaks [text[m.end(1):]] in the same way. *)
Inductive broken_at : string -> string -> list (string * string) -> Prop :=
| broken_whole (text : string) : broken_at text text []
| broken_more (text : string) (pat : Pattern) (m : nat * nat)
              (part : string) (more : list (string * string)) :
    In pat (breakpatterns self) ->
    In m (re_finditer re pat text) ->
    broken_at (Py.drop (snd m) text) part more ->
    broken_at text (Py.take (fst m) text)
              ((Py.take (snd m - fst m) (Py.drop (fst m) text), part) :: more).

(** The spans of group 1 that the break patterns find in [text] and in
    what is left of it after some characters end where they start or later. *)
Definition break_spans_ordered (text : string) : bool :=
  forallb (fun n =>
    forallb (fun pat =>
      forallb (fun m => (fst m <=? snd m)%nat) (re_finditer re pat (Py.drop n text)))
      (breakpatterns self))
    (seq 0 (S (String.length text))).

Definition spans_ordered_from (text : string) : Prop :=
  forall n pat m, In pat (breakpatterns self) ->
                  In m (re_finditer re pat (Py.drop n text)) -> fst m <= snd m.

(** What keeps [bad_compound] from indexing an empty text. *)
Definition texts_indexable (compound : Compound) : Prop :=
  CHECKCOMPOUNDCASE (aff self) = true ->
  Forall (fun form => text form <> EmptyString) compound.

Definition pair_indexable (left_paradigm right_paradigm : WordForm) : Prop :=
  CHECKCOMPOUNDCASE (aff self) = true ->
  text left_paradigm <> EmptyString /\ text right_paradigm <> EmptyString.

(** *** What the properties of the compound search are stated with *)

(** The parts of a compound as forms of slices of the word: the last part
    is a form [word_forms] gives for its slice at END, a part before it one
    it gives at BEGIN when it is the [first] part and at MIDDLE otherwise. *)
Inductive sliced (allow_nosuggest : bool) : bool -> list string -> list WordForm -> Prop :=
| sliced_last (slice : string) (form : WordForm) :
    In form (word_forms slice NO (Some END) allow_nosuggest) ->
    sliced allow_nosuggest false [slice] [form]
| sliced_more (first : bool) (slice : string) (form : WordForm)
              (slices : list string) (compound : list WordForm) :
    In form (word_forms slice NO (Some (if first then BEGIN else MIDDLE)) allow_nosuggest) ->
    sliced allow_nosuggest false slices compound ->
    sliced allow_nosuggest first (slice :: slices) (form :: compound).

End Methods.

(** ** Instances of the libraries for closed examples *)

(** A fragment of Python's [re]: a pattern is a sequence of literal
    characters, [.], [^], [$] and the parentheses of capture groups.  Every
    such pattern matches at most one way at a given position, which makes
    the leftmost match the only one.  A text with any other special
    character is outside the fragment and matches nothing here. *)
Module MiniRe.

Inductive atom :=
| AChar (c : ascii)
| AAny
| ABol
| AEol
| AOpen
| AClose.

Definition special (c : ascii) : bool :=
  Py.has_char c "[]*?+|\{}".

Fixpoint parse (pat : string) : option (list atom) :=
  match pat with
  | EmptyString => Some []
  | String c pat' =>
      if special c then None
      else match parse pat' with
           | None => None
           | Some atoms =>
               Some ((if Ascii.eqb c "." then AAny
                      else if Ascii.eqb c "^" then ABol
                      else if Ascii.eqb c "$" then AEol
                      else if Ascii.eqb c "(" then AOpen
                      else if Ascii.eqb c ")" then AClose
                      else AChar c) :: atoms)
           end
  end.

Definition newline : ascii := "010".

Record hit := mkHit {
  hit_len : nat;
  group_start : option nat;
  group_end : option nat
}.

(** The match of [atoms] that starts where [s] starts; [off] characters of
    it are already consumed, [at_start] tells whether [s] starts the
    subject. *)
Fixpoint match_here (atoms : list atom) (s : string) (at_start : bool)
    (off : nat) (gs ge : option nat) : option hit :=
  match atoms with
  | [] => Some (mkHit off gs ge)
  | AChar x :: atoms' =>
      match s with
      | String c s' => if Ascii.eqb c x then match_here atoms' s' false (S off) gs ge else None
      | EmptyString => None
      end
  | AAny :: atoms' =>
      match s with
      | String c s' => if Ascii.eqb c newline then None else match_here atoms' s' false (S off) gs ge
      | EmptyString => None
      end
  | ABol :: atoms' => if at_start then match_here atoms' s at_start off gs ge else None
  | AEol :: atoms' =>
      match s with
      | EmptyString => match_here atoms' s at_start off gs ge
      | String c EmptyString =>
          if Ascii.eqb c newline then match_here atoms' s at_start off gs ge else None
      | String _ (String _ _) => None
      end
  | AOpen :: atoms' =>
      match_here atoms' s at_start off (match gs with Some g => Some g | None => Some off end) ge
  | AClose :: atoms' =>
      match_here atoms' s at_start off gs (match ge with Some g => Some g | None => Some off end)
  end.

(** The matches of [atoms] in the subject from left to right, without
    overlap: [(position, hit)].  [skip] characters are still covered by the
    match found last. *)
Fixpoint scan (atoms : list atom) (s : string) (at_start : bool) (pos skip : nat)
    : list (nat * hit) :=
  match s with
  | EmptyString =>
      match skip, match_here atoms s at_start 0 None None with
      | 0, Some h => [(pos, h)]
      | _, _ => []
      end
  | String _ s' =>
      match skip with
      | S k => scan atoms s' false (S pos) k
      | 0 =>
          match match_here atoms s at_start 0 None None with
          | Some h => (pos, h) :: scan atoms s' false (S pos) (hit_len h - 1)
          | None => scan atoms s' false (S pos) 0
          end
      end
  end.

Definition matches (pat s : string) : list (nat * hit) :=
  match parse pat with
  | Some atoms => scan atoms s true 0 0
  | None => []
  end.

Definition search (pat s : string) : bool := nonempty (matches pat s).

(** [pattern.sub(repl, s)] for a replacement without backslash *)
Fixpoint sub_scan (atoms : list atom) (repl s : string) (at_start : bool) (skip : nat) : string :=
  match s with
  | EmptyString =>
      match skip, match_here atoms s at_start 0 None None with
      | 0, Some _ => repl
      | _, _ => EmptyString
      end
  | String c s' =>
      match skip with
      | S k => sub_scan atoms repl s' false k
      | 0 =>
          match match_here atoms s at_start 0 None None with
          | Some h =>
              repl ++ match hit_len h with
                      | 0 => String c (sub_scan atoms repl s' false 0)
                      | S k => sub_scan atoms repl s' false k
                      end
          | None => String c (sub_scan atoms repl s' false 0)
          end
      end
  end.

Definition sub (pat repl s : string) : string :=
  match parse pat with
  | Some atoms => sub_scan atoms repl s true 0
  | None => s
  end.

(** The spans of group 1 in the matches *)
Definition finditer (pat s : string) : list (nat * nat) :=
  flat_map (fun ph =>
              match group_start (snd ph), group_end (snd ph) with
              | Some a, Some b => [(fst ph + a, fst ph + b)]
              | _, _ => []
              end)
           (matches pat s).

Definition fullmatch (pat s : string) : bool :=
  match parse pat with
  | Some atoms =>
      match match_here atoms s true 0 None None with
      | Some h => (hit_len h =? String.length s)%nat
      | None => false
      end
  | None => false
  end.

Definition engine : Re := mkRe search sub finditer fullmatch.

End MiniRe.

(** The patterns of compound rules, for the [fullmatch] of [CompoundRule]:
    a character, a character with [*] or [?] after it, and, at the end, a
    group in parentheses with [?] after it that holds such a pattern again,
    which is how [partial_re] is written.  The other functions are those of
    [MiniRe]. *)
Module RuleRe.

Inductive item :=
| Lit (c : ascii)
| Many (c : ascii)
| Maybe (c : ascii).

(** The items up to a parenthesis or the end, and what is left. *)
Fixpoint items_of (skip : bool) (pat : string) : list item * string :=
  match pat with
  | EmptyString => ([], EmptyString)
  | String c pat' =>
      if skip then items_of false pat'
      else if Ascii.eqb c "(" || Ascii.eqb c ")" then ([], pat)
      else match pat' with
           | String m _ =>
               if Ascii.eqb m "*"
               then let r := items_of true pat' in (Many c :: fst r, snd r)
               else if Ascii.eqb m "?"
               then let r := items_of true pat' in (Maybe c :: fst r, snd r)
               else let r := items_of false pat' in (Lit c :: fst r, snd r)
           | EmptyString => ([Lit c], EmptyString)
           end
  end.

(** [")?"] as often as groups were opened *)
Fixpoint closes (opened : nat) (pat : string) : bool :=
  match opened, pat with
  | 0, EmptyString => true
  | S n, String a (String b pat') => Ascii.eqb a ")" && Ascii.eqb b "?" && closes n pat'
  | _, _ => false
  end.

(** The levels of a pattern: the items before the first group, the items
    of the group before the group inside it, and so on. *)
Fixpoint levels_of (fuel opened : nat) (pat : string) : option (list (list item)) :=
  match fuel with
  | 0 => None
  | S fuel' =>
      let r := items_of false pat in
      match snd r with
      | String c rest =>
          if Ascii.eqb c "("
          then match levels_of fuel' (S opened) rest with
               | Some levels => Some (fst r :: levels)
               | None => None
               end
          else if closes opened (snd r) then Some [fst r] else None
      | EmptyString => if closes opened EmptyString then Some [fst r] else None
      end
  end.

Definition parse (pat : string) : option (list (list item)) :=
  if Py.has_char "[" pat || Py.has_char "." pat || Py.has_char "|" pat
     || Py.has_char "+" pat || Py.has_char "^" pat || Py.has_char "$" pat
     || Py.has_char "\" pat || Py.has_char "{" pat
  then None
  else levels_of (S (String.length pat)) 0 pat.

Fixpoint star (c : ascii) (k : string -> bool) (s : string) : bool :=
  k s || match s with
         | String d s' => Ascii.eqb c d && star c k s'
         | EmptyString => false
         end.

Fixpoint match_items (items : list item) (k : string -> bool) (s : string) : bool :=
  match items with
  | [] => k s
  | Lit c :: items' =>
      match s with
      | String d s' => Ascii.eqb c d && match_items items' k s'
      | EmptyString => false
      end
  | Maybe c :: items' =>
      match s with
      | String d s' => Ascii.eqb c d && match_items items' k s'
      | EmptyString => false
      end
      || match_items items' k s
  | Many c :: items' => star c (match_items items' k) s
  end.

Definition at_end (s : string) : bool :=
  match s with
  | EmptyString => true
  | String _ _ => false
  end.

Fixpoint match_levels (levels : list (list item)) (s : string) : bool :=
  match levels with
  | [] => false
  | [level] => match_items level at_end s
  | level :: levels' => match_items level (fun s' => at_end s' || match_levels levels' s') s
  end.

Definition fullmatch (pat s : string) : bool :=
  match parse pat with
  | Some levels => match_levels levels s
  | None => false
  end.

Definition engine : Re := mkRe MiniRe.search MiniRe.sub MiniRe.finditer fullmatch.

End RuleRe.

(** [re.compile] on the two fragments: a text of [MiniRe] compiles when its
    parentheses pair up, a text of [RuleRe] when no [*] or [?] stands where
    a character is expected.  A text of neither fragment is outside what
    the closed examples use and is taken not to compile here. *)
Module MiniCompile.

Fixpoint paired (atoms : list MiniRe.atom) (depth : nat) : bool :=
  match atoms with
  | [] => (depth =? 0)%nat
  | MiniRe.AOpen :: atoms' => paired atoms' (S depth)
  | MiniRe.AClose :: atoms' =>
      match depth with
      | 0 => false
      | S d => paired atoms' d
      end
  | _ :: atoms' => paired atoms' depth
  end.

Definition mini_compiles (pat : Pattern) : bool :=
  match MiniRe.parse pat with
  | Some atoms => paired atoms 0
  | None => false
  end.

Definition item_char (i : RuleRe.item) : ascii :=
  match i with
  | RuleRe.Lit c => c
  | RuleRe.Many c => c
  | RuleRe.Maybe c => c
  end.

Definition rule_compiles (pat : Pattern) : bool :=
  match RuleRe.parse pat with
  | Some levels => forallb (forallb (fun i => negb (star_or_question (item_char i)))) levels
  | None => false
  end.

Definition compiles (pat : Pattern) : bool := mini_compiles pat || rule_compiles pat.

End MiniCompile.

(** Modelled from the spec: the capitalization helper ([cap.guess],
    [cap.variants]) is not among the sources; the spec gives its interface
    and the case forms to try (the word as it is, lowercase, title case). *)
Module MiniCap.

Definition lower (s : string) : string := Py.map_chars Py.lower s.
Definition upper (s : string) : string := Py.map_chars Py.upper s.

Definition lowerfirst (s : string) : string :=
  match s with
  | EmptyString => EmptyString
  | String c s' => String (Py.lower c) s'
  end.

Definition capitalize (s : string) : string :=
  match s with
  | EmptyString => EmptyString
  | String c s' => String (Py.upper c) (lower s')
  end.

Definition guess (word : string) : Cap :=
  if String.eqb (lower word) word then NO
  else if String.eqb (lowerfirst word) (lower word) then INIT
  else if String.eqb (upper word) word then ALL
  else if negb (String.eqb (lowerfirst word) word) then HUHINIT
  else HUH.

Definition variants (word : string) : Cap * list string :=
  let captype := guess word in
  (captype,
   match captype with
   | NO => [word]
   | INIT => [word; lower word]
   | HUHINIT => [word; lowerfirst word]
   | HUH => [word]
   | ALL => [word; lower word; capitalize word]
   end).

Definition helper : Capitalization := mkCapitalization variants guess.

End MiniCap.

(** Modelled from the spec: the dictionary ([data.dic]) is not among the
    sources; [homonyms(stem, ignorecase)] gives the entries whose stem is
    [stem], or is [stem] up to case. *)
Definition dic_of (entries : list Word) : Dic :=
  mkDic (fun stem ignorecase =>
           filter (fun w =>
                     if ignorecase
                     then String.eqb (MiniCap.lower (w_stem w)) (MiniCap.lower stem)
                     else String.eqb (w_stem w) stem)
                  entries).

(** Modelled from the spec: [permutations.replchars] is not among the
    sources; it gives the strings made from a word by one replacement of
    a REP pair at one place. *)
Module MiniPmt.

Fixpoint replace_sites (before rest i o : string) : list Candidate :=
  match rest with
  | EmptyString => []
  | String c rest' =>
      (if nonempty_str i && Py.startswith rest i
       then [CandStr (before ++ o ++ Py.drop (String.length i) rest)]
       else [])
      ++ replace_sites (before ++ String c EmptyString) rest' i o
  end.

Definition replchars (word : string) (reptable : list (string * string)) : list Candidate :=
  flat_map (fun io => replace_sites EmptyString word (fst io) (snd io)) reptable.

End MiniPmt.

(** An [Aff] with nothing set; [COMPOUNDMIN] has its default 3. *)
Definition empty_aff : Aff :=
  mkAff [] [] None None None None None None None None None None None
        3 None false false false [] [] [] [] [].

(** ** Fixtures *)

(** The analyzer [Analyzer_init] builds when there are neither compound
    rules nor compound patterns and the patterns of the affixes and of the
    breaks compile. *)
Definition plain_analyzer (aff : Aff) (entries : list Word) : Analyzer :=
  mkAnalyzer aff (dic_of entries)
             (compile_suffixes aff) (compile_prefixes aff)
             [] [] (map break_pattern (BREAK aff)).

Module Fixtures.

Definition lookup_in := lookup MiniRe.engine MiniCap.helper MiniPmt.replchars.
Definition is_found_in := is_found MiniRe.engine MiniCap.helper MiniPmt.replchars.
Definition analyze_in := analyze MiniRe.engine MiniCap.helper MiniPmt.replchars.
Definition compound_parts_in := compound_parts MiniRe.engine MiniCap.helper MiniPmt.replchars.
Definition bad_compound_in := bad_compound MiniRe.engine MiniCap.helper MiniPmt.replchars.
Definition check_pair_in := check_pair MiniRe.engine MiniCap.helper MiniPmt.replchars.
Definition word_forms_in := word_forms MiniRe.engine MiniCap.helper.
Definition form_yields_in := form_yields MiniCap.helper.
Definition try_affix_forms_in := try_affix_forms MiniRe.engine.

(** One word. *)
Definition hello : Analyzer := plain_analyzer empty_aff [mkWord "hello" []].

(** FORBIDDENWORD is [!]; [bad] is forbidden, [cat] is forbidden and takes
    the suffix [s], [cats] is a word of its own. *)
Definition forbidden_aff : Aff :=
  mkAff [("A", [mkAffix "A" EmptyString "s" "." true []])] []
        (Some "!") None None None None None None None None None None
        3 None false false false [] [] [] [] [].

Definition forbidden : Analyzer :=
  plain_analyzer forbidden_aff
    [mkWord "bad" ["!"]; mkWord "cat" ["A"; "!"]; mkWord "cats" []].

(** ICONV doubles an [a]. *)
Definition doubling_aff : Aff :=
  mkAff [] [] None None None None None None None None None None None
        3 None false false false [] [("a", "aa")] [] [] [].

Definition doubling : Analyzer := plain_analyzer doubling_aff [mkWord "aa" []].

(** ICONV turns [x] into [y]; FORBIDDENWORD is [!]. *)
Definition converting_aff : Aff :=
  mkAff [] [] (Some "!") None None None None None None None None None None
        3 None false false false [] [("x", "y")] [] [] [].

Definition converting : Analyzer :=
  plain_analyzer converting_aff [mkWord "yes" []; mkWord "no" ["!"]].

(** As [converting], with the unconverted [xes] forbidden. *)
Definition shadowed : Analyzer :=
  plain_analyzer converting_aff [mkWord "xes" ["!"]; mkWord "yes" []].

(** BREAK is [-]. *)
Definition breaking_aff : Aff :=
  mkAff [] [] None None None None None None None None None None None
        3 None false false false [] [] [] ["-"] [].

Definition breaking : Analyzer :=
  plain_analyzer breaking_aff [mkWord "foo" []; mkWord "bar" []].

(** COMPOUNDFLAG is [Z], COMPOUNDWORDSMAX is 2. *)
Definition two_words_aff : Aff :=
  mkAff [] [] None None None None None (Some "Z") None None None None None
        3 (Some 2) false false false [] [] [] [] [].

Definition two_words : Analyzer :=
  plain_analyzer two_words_aff
    [mkWord "foo" ["Z"]; mkWord "bar" ["Z"]; mkWord "baz" ["Z"]].

(** COMPOUNDFLAG is [Z], COMPOUNDPERMITFLAG is [P]; the prefix [un] and the
    suffix [ed] combine, and [ed] is permitted inside compounds. *)
Definition un_prefix : Affix := mkAffix "B" EmptyString "un" "." true [].
Definition ed_suffix : Affix := mkAffix "A" EmptyString "ed" "." true ["P"].

Definition crossing_aff : Aff :=
  mkAff [("A", [ed_suffix])] [("B", [un_prefix])]
        None None None None None (Some "Z") None None None (Some "P") None
        3 None false false false [] [] [] [] [].

Definition crossing : Analyzer :=
  plain_analyzer crossing_aff [mkWord "lock" ["A"; "B"; "Z"]; mkWord "bar" ["Z"]].

(** Two dictionary entries for one stem. *)
Definition homonymous : Analyzer :=
  plain_analyzer empty_aff [mkWord "work" ["A"]; mkWord "work" ["B"]].

(** COMPOUNDFLAG is [Z], CHECKCOMPOUNDTRIPLE is on. *)
Definition triple_aff : Aff :=
  mkAff [] [] None None None None None (Some "Z") None None None None None
        3 None false true false [] [] [] [] [].

Definition triple : Analyzer :=
  plain_analyzer triple_aff [mkWord "xyz" ["Z"]; mkWord "aaa" ["Z"]].



(** Two suffixes, one on the other: [er] carries the flag of [s]. *)
Definition s_suffix : Affix := mkAffix "S" EmptyString "s" "." true [].
Definition er_suffix : Affix := mkAffix "R" EmptyString "er" "." true ["S"].

Definition layered_aff : Aff :=
  mkAff [("S", [s_suffix]); ("R", [er_suffix])] []
        None None None None None None None None None None None
        3 None false false false [] [] [] [] [].

Definition layered : Analyzer := plain_analyzer layered_aff [mkWord "work" ["R"]].

(** NOSUGGEST is [N]. *)
Definition discreet_aff : Aff :=
  mkAff [] [] None (Some "N") None None None None None None None None None
        3 None false false false [] [] [] [] [].

Definition discreet : Analyzer :=
  plain_analyzer discreet_aff [mkWord "darn" []; mkWord "damn" ["N"]].

(** The compound rule [A*B] with COMPOUNDMIN 1. *)
Definition ruled_aff : Aff :=
  mkAff [] [] None None None None None None None None None None None
        1 None false false false [] [] [] [] ["A*B"].

Definition ruled_entries : list Word :=
  [mkWord "x" ["A"]; mkWord "y" ["A"]; mkWord "z" ["B"]].

Definition ruled : Analyzer :=
  mkAnalyzer ruled_aff (dic_of ruled_entries) [] []
             [mkCompoundRule "A*B" ["A"; "B"] "A*B" "A*(B)?"] [] [].

(** CHECKCOMPOUNDCASE is on. *)
Definition cased_aff : Aff :=
  mkAff [] [] None None None None None (Some "Z") None None None None None
        3 None true false false [] [] [] [] [].

Definition cased : Analyzer := plain_analyzer cased_aff [mkWord "foo" ["Z"]].

(** The forms the examples name. *)
Definition workers_form : WordForm :=
  mkWordForm "workers" "work" None (Some er_suffix) None (Some s_suffix).

Definition locked_form : WordForm :=
  mkWordForm "locked" "lock" None (Some ed_suffix) None None.

Definition unlocked_form : WordForm :=
  mkWordForm "unlocked" "locked" (Some un_prefix) None None None.


Definition foo_bar_baz : Compound :=
  [WordForm_base "foo" "foo"; WordForm_base "bar" "bar"; WordForm_base "baz" "baz"].

Definition x_y_z : Compound :=
  [WordForm_base "x" "x"; WordForm_base "y" "y"; WordForm_base "z" "z"].

(** COMPOUNDBEGIN, COMPOUNDMIDDLE and COMPOUNDLAST are [B], [M] and [L],
    COMPOUNDMIN is 0, COMPOUNDWORDSMAX is 3, CHECKCOMPOUNDTRIPLE and
    CHECKCOMPOUNDCASE are on; the dictionary has an entry with an empty
    stem. *)
Definition both_aff : Aff :=
  mkAff [] [] None None None None None None (Some "B") (Some "M") (Some "L") None None
        0 (Some 3) true true false [] [] [] [] [].

Definition both : Analyzer :=
  plain_analyzer both_aff
    [mkWord EmptyString ["B"; "M"]; mkWord "aa" ["M"]; mkWord "a" ["L"]].




End Fixtures.

(** ** Checks of the embedding on small inputs *)

Example replace_overlap : Py.replace "aaa" "aa" "b" = "ba".
Proof. reflexivity. Qed.

Example replace_empty : Py.replace "ab" EmptyString "-" = "-a-b-".
Proof. reflexivity. Qed.

Example split_two : Py.split_on "/" "ab/c" = ["ab"; "c"].
Proof. reflexivity. Qed.

Example sorted_stable :
  Py.sorted_desc (fun io => String.length (snd io)) [("a", "x"); ("b", "yy"); ("c", "z")]
  = [("b", "yy"); ("a", "x"); ("c", "z")].
Proof. reflexivity. Qed.

Example rule_parts_ex : rule_parts "A*B?C" = ["A*"; "B?"; "C"].
Proof. reflexivity. Qed.

Example partial_re_ex :
  CompoundRule_init MiniCompile.compiles "A*B?C"
  = Ok (mkCompoundRule "A*B?C" ["A"; "B"; "C"] "A*B?C" "A*(B?(C)?)?").
Proof. reflexivity. Qed.

Example rule_without_flag :
  CompoundRule_init MiniCompile.compiles EmptyString = Raise TypeError.
Proof. reflexivity. Qed.

Example rule_of_marks :
  map (CompoundRule_init MiniCompile.compiles) ["*"; "?A"] = [Raise ReError; Raise ReError].
Proof. reflexivity. Qed.

Example cond_parts_ex : cond_parts_of "[^aeiou]y" = ["[^aeiou]"; "y"].
Proof. reflexivity. Qed.

Example suffix_regexp_ex :
  suffix_regexp (mkAffix "A" "y" "ies" "[^aeiou]y" true []) = "(?<=[^aeiou])ies$".
Proof. reflexivity. Qed.

Example suffix_regexp_dot :
  suffix_regexp (mkAffix "A" EmptyString "s" "." true []) = "s$".
Proof. reflexivity. Qed.

Example break_pattern_ex : map break_pattern ["-"; "^-"; "-$"] = [".(-)."; "(^-)"; "(-$)"].
Proof. reflexivity. Qed.

Example mini_search_suffix : MiniRe.search "ed$" "locked" = true.
Proof. reflexivity. Qed.

Example mini_sub_suffix : MiniRe.sub "ies$" "y" "ponies" = "pony".
Proof. reflexivity. Qed.

Example mini_sub_prefix : MiniRe.sub "^un" EmptyString "unlocked" = "locked".
Proof. reflexivity. Qed.

Example mini_sub_zero_affix : MiniRe.sub "$" "e" "lik" = "like".
Proof. reflexivity. Qed.

Example mini_finditer_inner : MiniRe.finditer ".(-)." "foo-bar-baz" = [(3, 4); (7, 8)].
Proof. reflexivity. Qed.

Example mini_finditer_start : MiniRe.finditer "(^-)" "-bar-" = [(0, 1)].
Proof. reflexivity. Qed.

Example mini_finditer_end : MiniRe.finditer "(-$)" "-bar-" = [(4, 5)].
Proof. reflexivity. Qed.

Example mini_outside_fragment : MiniRe.search "(?<=[^aeiou])ies$" "ponies" = false.
Proof. reflexivity. Qed.

Example replchars_ex :
  MiniPmt.replchars "abab" [("b", "x")] = [CandStr "axab"; CandStr "abax"].
Proof. reflexivity. Qed.

Example scenario_bare_match :
  Fixtures.lookup_in Fixtures.hello "hello" true true = Ok true
  /\ Fixtures.lookup_in Fixtures.hello "hell" true true = Ok false.
Proof. split; reflexivity. Qed.

Example scenario_break :
  Fixtures.lookup_in Fixtures.breaking "foo-bar" true true = Ok true
  /\ Fixtures.lookup_in Fixtures.breaking "foo-baz" true true = Ok false.
Proof. split; reflexivity. Qed.

Example rule_fullmatch :
  map (RuleRe.fullmatch "A*B") ["B"; "AB"; "AAB"; "A"; "BA"; EmptyString]
  = [true; true; true; false; false; false].
Proof. reflexivity. Qed.

Example rule_partial_match :
  map (RuleRe.fullmatch "A*(B?(C)?)?") [EmptyString; "AA"; "AAB"; "AC"; "ABC"; "C"; "ACB"]
  = [true; true; true; true; true; true; false].
Proof. reflexivity. Qed.

Example ruled_is_built :
  Analyzer_init MiniCompile.compiles Fixtures.ruled_aff (dic_of Fixtures.ruled_entries)
  = Ok Fixtures.ruled.
Proof. reflexivity. Qed.

Example crossing_is_built :
  Analyzer_init MiniCompile.compiles Fixtures.crossing_aff (dic Fixtures.crossing)
  = Ok Fixtures.crossing.
Proof. reflexivity. Qed.

Example scenario_compound_rule :
  map (fun w => lookup RuleRe.engine MiniCap.helper MiniPmt.replchars Fixtures.ruled w true true)
      ["xyz"; "xz"; "zxy"]
  = [Ok true; Ok true; Ok false].
Proof. reflexivity. Qed.

Lemma re_compile_all (compiles : Pattern -> bool) (texts : list string) :
  forallb compiles texts = true -> mapM (re_compile compiles) texts = Ok texts.
Proof.
  induction texts as [|t texts IH]; simpl; intros Hall; [reflexivity|].
  apply andb_true_iff in Hall. destruct Hall as [Ht Hall].
  unfold re_compile at 1. rewrite Ht. cbn [rbind]. rewrite (IH Hall). reflexivity.
Qed.

Lemma Analyzer_init_plain (compiles : Pattern -> bool) (aff : Aff) (entries : list Word) :
  COMPOUNDRULE aff = [] ->
  CHECKCOMPOUNDPATTERN aff = [] ->
  forallb compiles (map suffix_regexp (all_values (SFX aff))) = true ->
  forallb compiles (map prefix_regexp (all_values (PFX aff))) = true ->
  forallb compiles (map break_pattern (BREAK aff)) = true ->
  Analyzer_init compiles aff (dic_of entries) = Ok (plain_analyzer aff entries).
Proof.
  intros Hrules Hpatterns Hsuffixes Hprefixes Hbreaks. unfold Analyzer_init, plain_analyzer.
  rewrite Hrules, Hpatterns.
  rewrite (re_compile_all _ _ Hsuffixes), (re_compile_all _ _ Hprefixes),
          (re_compile_all _ _ Hbreaks).
  reflexivity.
Qed.

(** ** Properties of the recognizer *)

Section Properties.

Variable re : Re.
Variable cap : Capitalization.
Variable replchars : string -> list (string * string) -> list Candidate.
Variable self : Analyzer.

Local Abbreviation lookup' := (lookup re cap replchars self).
Local Abbreviation is_found' := (is_found re cap replchars self).
Local Abbreviation analyze' := (analyze re cap replchars self).
Local Abbreviation word_forms' := (word_forms re cap self).
Local Abbreviation word_forms_loop' := (word_forms_loop cap self).
Local Abbreviation form_yields' := (form_yields cap self).
Local Abbreviation have_compatible_flags' := (have_compatible_flags cap self).
Local Abbreviation bad_compound' := (bad_compound re cap replchars self).

(** *** The fuel of the compound search is enough *)

Lemma gen_chain_ends_well {A} (g1 g2 : gen A) :
  ending g1 = None -> ending g2 = None -> ending (gen_chain g1 g2) = None.
Proof.
  intros H1 H2. unfold gen_chain. rewrite H1. exact H2.
Qed.

Lemma gen_for_ends_well {A B} (l : list A) (f : A -> gen B) :
  (forall x, In x l -> ending (f x) = None) -> ending (gen_for l f) = None.
Proof.
  induction l as [|x l IH]; simpl; intros Hall.
  - reflexivity.
  - apply gen_chain_ends_well.
    + apply Hall. left. reflexivity.
    + apply IH. intros y Hy. apply Hall. right. exact Hy.
Qed.

Lemma length_drop (n : nat) (s : string) :
  String.length (Py.drop n s) = String.length s - n.
Proof.
  revert s. induction n as [|n IH]; intros [|c s]; simpl; try reflexivity.
  apply IH.
Qed.

Lemma split_position_shortens (word_rest : string) (pos : nat) :
  1 <= COMPOUNDMIN (aff self) ->
  In pos (split_positions self word_rest) ->
  String.length (Py.drop pos word_rest) < String.length word_rest.
Proof.
  intros Hmin Hpos. unfold split_positions in Hpos. apply in_seq in Hpos.
  rewrite length_drop. lia.
Qed.

(** With COMPOUNDMIN at least 1 every nested call of
    [compound_parts_by_flags] is on a shorter text, and fuel above the
    length of the word never runs out. *)
Lemma compound_parts_by_flags_ends_well (fuel : nat) :
  1 <= COMPOUNDMIN (aff self) ->
  forall word_rest prev_parts allow_nosuggest,
    String.length word_rest < fuel ->
    ending (compound_parts_by_flags re cap self fuel word_rest prev_parts allow_nosuggest)
    = None.
Proof.
  intros Hmin. induction fuel as [|fuel IH]; intros word_rest prev_parts allow_nosuggest Hfuel.
  - lia.
  - simpl. destruct (stop_splitting self word_rest (List.length prev_parts)); [reflexivity|].
    apply gen_chain_ends_well; [reflexivity|].
    apply gen_for_ends_well. intros pos Hpos.
    apply gen_for_ends_well. intros form _. simpl.
    apply IH. pose proof (@split_position_shortens word_rest pos Hmin Hpos). lia.
Qed.

Lemma compound_parts_by_rules_ends_well (fuel : nat) :
  1 <= COMPOUNDMIN (aff self) ->
  forall word_rest prev_parts rules allow_nosuggest,
    String.length word_rest < fuel ->
    ending (compound_parts_by_rules re self fuel word_rest prev_parts rules allow_nosuggest)
    = None.
Proof.
  intros Hmin. induction fuel as [|fuel IH];
    intros word_rest prev_parts rules allow_nosuggest Hfuel.
  - lia.
  - simpl. destruct (stop_splitting self word_rest (List.length prev_parts)); [reflexivity|].
    apply gen_chain_ends_well; [reflexivity|].
    apply gen_for_ends_well. intros pos Hpos.
    apply gen_for_ends_well. intros homonym _.
    destruct (nonempty _); [|reflexivity]. simpl.
    apply IH. pose proof (@split_position_shortens word_rest pos Hmin Hpos). lia.
Qed.

Lemma compound_fuel_enough (word : string) : String.length word < compound_fuel self word.
Proof. unfold compound_fuel. lia. Qed.

(** *** The size of the compounds found *)

Lemma in_gen_chain {A} (g1 g2 : gen A) (x : A) :
  In x (items (gen_chain g1 g2)) -> In x (items g1) \/ In x (items g2).
Proof.
  unfold gen_chain. destruct (ending g1); simpl.
  - intros H. left. exact H.
  - apply in_app_or.
Qed.

Lemma in_gen_for {A B} (l : list A) (f : A -> gen B) (y : B) :
  In y (items (gen_for l f)) -> exists x, In x l /\ In y (items (f x)).
Proof.
  induction l as [|x l IH]; simpl.
  - contradiction.
  - intros Hin. apply in_gen_chain in Hin. destruct Hin as [Hin | Hin].
    + exists x. split; [left; reflexivity | exact Hin].
    + destruct (IH Hin) as [x' [Hx' Hy]]. exists x'. split; [right; exact Hx' | exact Hy].
Qed.

Lemma in_filter_not {A} (bad : A -> result bool) (l : list A) (e : option exn) (x : A) :
  In x (items (filter_not bad l e)) -> In x l.
Proof.
  induction l as [|y l IH]; simpl.
  - contradiction.
  - destruct (bad y) as [[|]|e']; simpl.
    + intros H. right. exact (IH H).
    + intros [-> | H]; [left; reflexivity | right; exact (IH H)].
    + contradiction.
Qed.

(** A compound of [compound_parts_by_flags] has a part, and two when the
    search starts with no part before. *)
Lemma compound_parts_by_flags_size (fuel : nat) :
  forall word_rest prev_parts allow_nosuggest compound,
    In compound
       (items (compound_parts_by_flags re cap self fuel word_rest prev_parts allow_nosuggest)) ->
    1 <= List.length compound /\ (prev_parts = [] -> 2 <= List.length compound).
Proof.
  induction fuel as [|fuel IH]; intros word_rest prev_parts allow_nosuggest compound; simpl.
  - contradiction.
  - assert (Hwhole : forall c,
              In c (if nonempty prev_parts
                    then map (fun form => [form])
                             (word_forms' word_rest NO (Some END) allow_nosuggest)
                    else []) ->
              1 <= List.length c /\ (prev_parts = [] -> 2 <= List.length c)).
    { intros c Hc. destruct prev_parts as [|p ps]; simpl in Hc; [contradiction|].
      apply in_map_iff in Hc. destruct Hc as [form [<- _]].
      split; [simpl; lia | discriminate]. }
    destruct (stop_splitting self word_rest (List.length prev_parts)).
    + apply Hwhole.
    + intros Hin. apply in_gen_chain in Hin. destruct Hin as [Hin | Hin].
      * apply Hwhole. exact Hin.
      * apply in_gen_for in Hin. destruct Hin as [pos [_ Hin]].
        apply in_gen_for in Hin. destruct Hin as [form [_ Hin]].
        simpl in Hin. apply in_map_iff in Hin. destruct Hin as [rest [<- Hrest]].
        destruct (IH _ _ _ _ Hrest) as [Hone _]. simpl. lia.
Qed.

Lemma compound_parts_by_rules_size (fuel : nat) :
  forall word_rest prev_parts rules allow_nosuggest compound,
    In compound
       (items (compound_parts_by_rules re self fuel word_rest prev_parts rules
                                       allow_nosuggest)) ->
    1 <= List.length compound /\ (prev_parts = [] -> 2 <= List.length compound).
Proof.
  induction fuel as [|fuel IH];
    intros word_rest prev_parts rules allow_nosuggest compound; simpl.
  - contradiction.
  - match goal with
    | |- In _ (items (if _ then gen_of_list ?w else _)) -> _ =>
        assert (Hwhole : forall c, In c w ->
                  1 <= List.length c /\ (prev_parts = [] -> 2 <= List.length c))
    end.
    { intros c Hc. destruct prev_parts as [|p ps]; simpl in Hc; [contradiction|].
      apply in_flat_map in Hc. destruct Hc as [homonym [_ Hc]].
      destruct (existsb _ rules); simpl in Hc; [|contradiction].
      destruct Hc as [<- | []]. split; [simpl; lia | discriminate]. }
    destruct (stop_splitting self word_rest (List.length prev_parts)).
    + apply Hwhole.
    + intros Hin. apply in_gen_chain in Hin. destruct Hin as [Hin | Hin].
      * apply Hwhole. exact Hin.
      * apply in_gen_for in Hin. destruct Hin as [pos [_ Hin]].
        apply in_gen_for in Hin. destruct Hin as [homonym [_ Hin]].
        destruct (nonempty (filter _ rules)); simpl in Hin; [|contradiction].
        apply in_map_iff in Hin. destruct Hin as [rest [<- Hrest]].
        destruct (IH _ _ _ _ _ Hrest) as [Hone _]. simpl. lia.
Qed.

(** Every compound of [compound_parts] has two parts or more. *)
Lemma compound_parts_two_parts (word : string) (allow_nosuggest : bool) (compound : Compound) :
  In compound (items (compound_parts re cap replchars self word allow_nosuggest)) ->
  2 <= List.length compound.
Proof.
  unfold compound_parts, gen_filter_not. intros Hin.
  apply in_filter_not in Hin. apply in_gen_chain in Hin.
  destruct Hin as [Hin | Hin].
  - destruct (_ || _); simpl in Hin; [|contradiction].
    apply compound_parts_by_flags_size in Hin. apply Hin. reflexivity.
  - destruct (nonempty _); simpl in Hin; [|contradiction].
    apply compound_parts_by_rules_size in Hin. apply Hin. reflexivity.
Qed.

(** With COMPOUNDWORDSMAX set, the parts before and the parts of a compound
    of [compound_parts_by_flags] are COMPOUNDWORDSMAX + 1 together, or
    fewer. *)
Lemma compound_parts_by_flags_bound (fuel m : nat) :
  COMPOUNDWORDSMAX (aff self) = Some (S m) ->
  forall word_rest prev_parts allow_nosuggest compound,
    List.length prev_parts <= S m ->
    In compound
       (items (compound_parts_by_flags re cap self fuel word_rest prev_parts allow_nosuggest)) ->
    List.length prev_parts + List.length compound <= S m + 1.
Proof.
  intros Hmax. induction fuel as [|fuel IH];
    intros word_rest prev_parts allow_nosuggest compound Hprev; simpl.
  - contradiction.
  - assert (Hwhole : forall c,
              In c (if nonempty prev_parts
                    then map (fun form => [form])
                             (word_forms' word_rest NO (Some END) allow_nosuggest)
                    else []) ->
              List.length prev_parts + List.length c <= S m + 1).
    { intros c Hc. destruct (nonempty prev_parts); [|contradiction].
      apply in_map_iff in Hc. destruct Hc as [form [<- _]]. simpl. lia. }
    destruct (stop_splitting self word_rest (List.length prev_parts)) eqn:Hstop.
    + apply Hwhole.
    + intros Hin. apply in_gen_chain in Hin. destruct Hin as [Hin | Hin].
      * apply Hwhole. exact Hin.
      * apply in_gen_for in Hin. destruct Hin as [pos [_ Hin]].
        apply in_gen_for in Hin. destruct Hin as [form [_ Hin]].
        simpl in Hin. apply in_map_iff in Hin. destruct Hin as [rest [<- Hrest]].
        unfold stop_splitting, words_max_reached in Hstop. rewrite Hmax in Hstop.
        apply orb_false_iff in Hstop. destruct Hstop as [_ Hstop].
        apply Nat.leb_gt in Hstop.
        apply IH in Hrest.
        -- rewrite length_app in Hrest. simpl in *. lia.
        -- rewrite length_app. simpl. lia.
Qed.

(** *** The forbidden shortcut *)

Lemma forbidden_shortcut_true (word : string) :
  truthy (FORBIDDENWORD (aff self)) = true ->
  homonyms (dic self) word false <> [] ->
  (forall w, In w (homonyms (dic self) word false) ->
             mem_opt (FORBIDDENWORD (aff self)) (w_flags w) = true) ->
  forbidden_shortcut self word = true.
Proof.
  intros Hdefined Hsome Hall. unfold forbidden_shortcut.
  rewrite Hdefined. simpl.
  destruct (homonyms (dic self) word false) as [|w ws] eqn:Hws.
  - contradiction.
  - simpl nonempty. rewrite andb_true_l. apply forallb_forall. exact Hall.
Qed.

(** C1.  When FORBIDDENWORD is defined, [word] has homonyms and every one
    of them carries FORBIDDENWORD, [lookup] returns [False], whatever the
    options [capitalization] and [allow_nosuggest] are. *)
Theorem lookup_forbidden_word (word : string) (capitalization allow_nosuggest : bool) :
  truthy (FORBIDDENWORD (aff self)) = true ->
  homonyms (dic self) word false <> [] ->
  (forall w, In w (homonyms (dic self) word false) ->
             mem_opt (FORBIDDENWORD (aff self)) (w_flags w) = true) ->
  lookup' word capitalization allow_nosuggest = Ok false.
Proof.
  intros Hdefined Hsome Hall. unfold lookup.
  rewrite (forbidden_shortcut_true word Hdefined Hsome Hall). reflexivity.
Qed.

(** *** Exceptions *)

Lemma analyze_without_capitalization (word : string) (allow_nosuggest : bool) :
  analyze' word false allow_nosuggest = Raise TypeError.
Proof. reflexivity. Qed.

Lemma lookup_without_capitalization (word : string) (allow_nosuggest : bool) :
  forbidden_shortcut self word = false ->
  lookup' word false allow_nosuggest = Raise TypeError.
Proof.
  intros Hshortcut. unfold lookup. rewrite Hshortcut. reflexivity.
Qed.

(** *** ICONV *)

(** C3, amended.  [lookup'(w)] and [lookup'(apply_iconv(w))] agree when the
    forbidden shortcut decides alike on [w] and on [apply_iconv(w)] and a
    second conversion leaves [apply_iconv(w)] as it is. *)
Theorem lookup_iconv_stable (word : string) (capitalization allow_nosuggest : bool) :
  forbidden_shortcut self (apply_iconv self word) = forbidden_shortcut self word ->
  apply_iconv self (apply_iconv self word) = apply_iconv self word ->
  lookup' word capitalization allow_nosuggest
  = lookup' (apply_iconv self word) capitalization allow_nosuggest.
Proof.
  intros Hshortcut Hstable. unfold lookup.
  rewrite Hshortcut, Hstable. reflexivity.
Qed.

(** *** [word_forms] *)

Lemma word_forms_loop_stops (before after : list WordForm) (form : WordForm)
    (captype : Cap) (compoundpos : option CompoundPos) (allow_nosuggest : bool) :
  forbidden_stop self form compoundpos = true ->
  word_forms_loop' (before ++ form :: after) captype compoundpos allow_nosuggest
  = word_forms_loop' before captype compoundpos allow_nosuggest.
Proof.
  intros Hstop. induction before as [|f before IH]; simpl.
  - rewrite Hstop. reflexivity.
  - destruct (forbidden_stop self f compoundpos); [reflexivity|].
    rewrite IH. reflexivity.
Qed.

(** C7.  When a form of [try_affix_forms], met with [compoundpos] set or
    with an affix on it, has a homonym of its stem that carries
    FORBIDDENWORD, [word_forms] yields what the forms before it gave and
    nothing more: neither this form nor any form after it. *)
Theorem word_forms_forbidden_return
    (word : string) (captype : Cap) (compoundpos : option CompoundPos)
    (allow_nosuggest : bool) (before after : list WordForm) (form : WordForm) :
  try_affix_forms re self word compoundpos = before ++ form :: after ->
  is_some compoundpos = true \/ is_base form = false ->
  (exists dword, In dword (homonyms (dic self) (stem form) false)
                 /\ mem_opt (FORBIDDENWORD (aff self)) (w_flags dword) = true) ->
  word_forms' word captype compoundpos allow_nosuggest
  = word_forms_loop' before captype compoundpos allow_nosuggest.
Proof.
  intros Hforms Hguard Hforbidden. unfold word_forms.
  rewrite Hforms. apply word_forms_loop_stops.
  unfold forbidden_stop. apply andb_true_iff. split.
  - destruct Hguard as [Hpos | Hbase].
    + rewrite Hpos. reflexivity.
    + rewrite Hbase. apply orb_true_r.
  - apply existsb_exists. exact Hforbidden.
Qed.

Lemma exact_loop_spec (ws : list Word) (form : WordForm) (captype : Cap)
    (compoundpos : option CompoundPos) (allow_nosuggest found : bool) :
  let compatible :=
    filter (fun w => have_compatible_flags' w form compoundpos captype allow_nosuggest) ws in
  exact_loop cap self ws form captype compoundpos allow_nosuggest found
  = (found || nonempty compatible, repeat form (List.length compatible)).
Proof.
  revert found. induction ws as [|w ws IH]; intros found; simpl.
  - rewrite orb_false_r. reflexivity.
  - destruct (have_compatible_flags' w form compoundpos captype allow_nosuggest); simpl.
    + rewrite IH. simpl. rewrite orb_true_r. reflexivity.
    + apply IH.
Qed.

(** One turn of the loop of [word_forms] yields the form once
    for each homonym of its stem, compared exactly, that passes
    [have_compatible_flags]; the homonyms found ignoring case are
    consulted when none passes, and only then. *)
Theorem form_yields_per_homonym (form : WordForm) (captype : Cap)
    (compoundpos : option CompoundPos) (allow_nosuggest : bool) :
  form_yields' form captype compoundpos allow_nosuggest
  = match filter (fun w => have_compatible_flags' w form compoundpos captype allow_nosuggest)
                 (homonyms (dic self) (stem form) false) with
    | [] => ignorecase_loop cap self (homonyms (dic self) (stem form) true) form
                            captype compoundpos allow_nosuggest
    | w :: ws => repeat form (List.length (w :: ws))
    end.
Proof.
  unfold form_yields. rewrite exact_loop_spec. cbv zeta. simpl fst. simpl snd.
  destruct (filter _ _) as [|w ws]; simpl.
  - reflexivity.
  - rewrite app_nil_r. reflexivity.
Qed.

(** *** The break search *)

Lemma take_drop (n : nat) (s : string) : (Py.take n s ++ Py.drop n s)%string = s.
Proof.
  revert s. induction n as [|n IH]; intros [|c s]; simpl; try reflexivity.
  rewrite IH. reflexivity.
Qed.

Lemma drop_drop (n m : nat) (s : string) : Py.drop n (Py.drop m s) = Py.drop (m + n) s.
Proof.
  revert s. induction m as [|m IH]; intros s; simpl.
  - reflexivity.
  - destruct s as [|c s].
    + destruct n; reflexivity.
    + apply IH.
Qed.

Lemma drop_all (n : nat) (s : string) :
  String.length s <= n -> Py.drop n s = EmptyString.
Proof.
  revert s. induction n as [|n IH]; intros [|c s] Hlen; simpl in *; try reflexivity.
  - lia.
  - apply IH. lia.
Qed.

(** A text is what precedes a span, the span and what follows it. *)
Lemma cut_span (a b : nat) (s : string) :
  a <= b ->
  (Py.take a s ++ Py.take (b - a) (Py.drop a s) ++ Py.drop b s)%string = s.
Proof.
  intros Hab. replace (Py.drop b s) with (Py.drop (b - a) (Py.drop a s)).
  - rewrite take_drop. apply take_drop.
  - rewrite drop_drop. f_equal. lia.
Qed.

Lemma break_spans_ordered_sound (text : string) :
  break_spans_ordered re self text = true -> spans_ordered_from re self text.
Proof.
  unfold break_spans_ordered, spans_ordered_from. intros Hall n pat m Hpat Hm.
  rewrite forallb_forall in Hall.
  assert (Hn : exists k, In k (seq 0 (S (String.length text)))
                         /\ Py.drop k text = Py.drop n text).
  { destruct (le_lt_dec n (String.length text)) as [Hle | Hgt].
    - exists n. split; [apply in_seq; lia | reflexivity].
    - exists (String.length text). split; [apply in_seq; lia|].
      rewrite !drop_all by lia. reflexivity. }
  destruct Hn as [k [Hk Hdrop]]. specialize (Hall k Hk).
  rewrite forallb_forall in Hall. specialize (Hall pat Hpat).
  rewrite forallb_forall in Hall. rewrite Hdrop in Hall.
  apply Nat.leb_le. exact (Hall m Hm).
Qed.

Lemma spans_ordered_drop (text : string) (b : nat) :
  spans_ordered_from re self text -> spans_ordered_from re self (Py.drop b text).
Proof.
  intros H n pat m Hpat Hm. rewrite drop_drop in Hm. exact (H _ pat m Hpat Hm).
Qed.

(** Every splitting of [try_break] breaks the text at matches of the break
    patterns. *)
Lemma try_break_broken (levels : nat) :
  forall text parts,
    In parts (try_break_levels re self levels text) ->
    exists first more, parts = woven_parts first more /\ broken_at re self text first more.
Proof.
  induction levels as [|levels IH]; intros text parts Hin; simpl in Hin.
  - contradiction.
  - destruct Hin as [Hwhole | Hbroken].
    + exists text, []. split; [symmetry; exact Hwhole | constructor].
    + apply in_flat_map in Hbroken. destruct Hbroken as [pat [Hpat Hbroken]].
      apply in_flat_map in Hbroken. destruct Hbroken as [m [Hm Hbroken]].
      apply in_map_iff in Hbroken. destruct Hbroken as [breaking [Hparts Hbreaking]].
      destruct (IH _ _ Hbreaking) as [first [more [Hwoven Hrest]]].
      exists (Py.take (fst m) text),
             ((Py.take (snd m - fst m) (Py.drop (fst m) text), first) :: more).
      split.
      * rewrite <- Hparts, Hwoven. reflexivity.
      * apply broken_more with (pat := pat); assumption.
Qed.

(** A text broken where the spans start no later than they end is the
    weave of its parts and of what was dropped. *)
Lemma broken_at_weave (text first : string) (more : list (string * string)) :
  broken_at re self text first more ->
  spans_ordered_from re self text ->
  weave first more = text.
Proof.
  induction 1 as [text | text pat m part more Hpat Hm Hrest IH]; intros Hspans.
  - reflexivity.
  - simpl. rewrite IH by (apply spans_ordered_drop; exact Hspans).
    apply cut_span. apply (Hspans 0 pat m Hpat). exact Hm.
Qed.

Lemma all_result_true {A} (found : A -> result bool) (l : list A) :
  all_result found l = Ok true -> forall x, In x l -> found x = Ok true.
Proof.
  induction l as [|y l IH]; simpl; intros Hall x Hin.
  - contradiction.
  - destruct (found y) as [[|]|e] eqn:Hy; simpl in Hall; try discriminate.
    destruct Hin as [<- | Hin]; [exact Hy | exact (IH Hall x Hin)].
Qed.

Lemma break_loop_true (capitalization allow_nosuggest : bool) (splittings : list (list string)) :
  break_loop re cap replchars self capitalization allow_nosuggest splittings = Ok true ->
  exists parts, In parts splittings
                /\ all_result (is_found' capitalization allow_nosuggest)
                              (filter nonempty_str parts) = Ok true.
Proof.
  induction splittings as [|parts splittings IH]; simpl; intros Hloop.
  - discriminate.
  - destruct (all_result _ (filter nonempty_str parts)) as [[|]|e] eqn:Hall;
      simpl in Hloop; try discriminate.
    + exists parts. split; [left; reflexivity | exact Hall].
    + destruct (IH Hloop) as [parts' [Hin Hall']].
      exists parts'. split; [right; exact Hin | exact Hall'].
Qed.

Lemma nonempty_str_true (s : string) : s <> EmptyString -> nonempty_str s = true.
Proof. destruct s; [contradiction | reflexivity]. Qed.

(** C4, amended.  When [lookup] accepts a word through the break search,
    the splitting it accepts breaks the word as ICONV left it at matches of
    the break patterns: each break leaves the text before group 1 of the
    match as a part, drops the text group 1 matched and goes on in the text
    after it.  The parts, in order, with the dropped texts put back between
    them, make that word (the parts alone need not) when the spans of
    group 1 start no later than they end, and every part that is not empty
    is accepted by [is_found]. *)
Theorem lookup_break_splitting (word : string) (capitalization allow_nosuggest : bool) :
  lookup' word capitalization allow_nosuggest = Ok true ->
  is_found' capitalization allow_nosuggest (apply_iconv self word) = Ok false ->
  exists first more,
    In (woven_parts first more) (try_break re self (apply_iconv self word) 0)
    /\ broken_at re self (apply_iconv self word) first more
    /\ (break_spans_ordered re self (apply_iconv self word) = true ->
        weave first more = apply_iconv self word)
    /\ forall part, In part (woven_parts first more) -> part <> EmptyString ->
                    is_found' capitalization allow_nosuggest part = Ok true.
Proof.
  intros Hlookup Hwhole. unfold lookup in Hlookup.
  destruct (forbidden_shortcut self word); [discriminate|].
  rewrite Hwhole in Hlookup. cbn [rbind] in Hlookup.
  destruct (break_loop_true _ _ _ Hlookup) as [parts [Hin Hall]].
  destruct (try_break_broken _ _ _ Hin) as [first [more [Hparts Hbroken]]].
  exists first, more. subst parts. split; [exact Hin|]. split; [exact Hbroken|]. split.
  - intros Hspans. apply (broken_at_weave Hbroken).
    apply break_spans_ordered_sound. exact Hspans.
  - intros part Hpart Hnonempty.
    apply (all_result_true _ _ Hall). apply filter_In.
    split; [exact Hpart | apply nonempty_str_true; exact Hnonempty].
Qed.

(** *** [bad_compound] *)

Lemma last_char_some (s : string) :
  s <> EmptyString -> exists c, last_char s = Some c.
Proof.
  induction s as [|c s IH]; intros Hs.
  - contradiction.
  - destruct s as [|d s].
    + exists c. reflexivity.
    + destruct IH as [x Hx]; [discriminate|]. exists x. exact Hx.
Qed.

Lemma check_pair_total (left_paradigm right_paradigm : WordForm) :
  pair_indexable self left_paradigm right_paradigm ->
  exists b, check_pair re cap replchars self left_paradigm right_paradigm = Ok b.
Proof.
  intros Hindex. unfold check_pair.
  destruct (rep_check _ _ _ _ _ _); [eexists; reflexivity|].
  destruct (triple_check _ _ _); [eexists; reflexivity|].
  unfold case_check. destruct (CHECKCOMPOUNDCASE (aff self)) eqn:Hcase.
  - destruct (Hindex Hcase) as [Hleft Hright].
    destruct (text right_paradigm) as [|r rest]; [contradiction|].
    destruct (@last_char_some (text left_paradigm) Hleft) as [l Hl]. rewrite Hl. simpl.
    destruct (_ && _); eexists; reflexivity.
  - simpl. eexists; reflexivity.
Qed.



Lemma inner_loop_total (left_paradigm : WordForm) (rights : list WordForm) :
  (forall r, In r rights -> pair_indexable self left_paradigm r) ->
  exists b, inner_loop re cap replchars self left_paradigm rights = Ok b.
Proof.
  induction rights as [|r rights IH]; simpl; intros Hindex.
  - eexists; reflexivity.
  - destruct (@check_pair_total left_paradigm r (Hindex r (or_introl eq_refl))) as [b Hb].
    rewrite Hb. simpl. destruct b; [eexists; reflexivity|].
    apply IH. intros r' Hr'. apply Hindex. right. exact Hr'.
Qed.



Lemma in_removelast {A} (x : A) (l : list A) : In x (removelast l) -> In x l.
Proof.
  induction l as [|y l IH]; simpl; [tauto|].
  destruct l as [|z l]; [simpl; tauto|].
  intros [-> | Hin]; [left; reflexivity | right; exact (IH Hin)].
Qed.

Lemma in_tl {A} (x : A) (l : list A) : In x (tl l) -> In x l.
Proof. destruct l; simpl; [tauto | intros H; right; exact H]. Qed.


Lemma inner_loop_true_iff (left_paradigm : WordForm) (rights : list WordForm) :
  (forall r, In r rights -> pair_indexable self left_paradigm r) ->
  inner_loop re cap replchars self left_paradigm rights = Ok true
  <-> exists r, In r rights /\ check_pair re cap replchars self left_paradigm r = Ok true.
Proof.
  induction rights as [|r rights IH]; simpl; intros Hindex.
  - split; [discriminate | intros [r [[] _]]].
  - destruct (@check_pair_total left_paradigm r (Hindex r (or_introl eq_refl))) as [b Hb].
    rewrite Hb. simpl. destruct b.
    + split; [|reflexivity]. intros _. exists r. split; [left; reflexivity | exact Hb].
    + rewrite IH by (intros r' Hr'; apply Hindex; right; exact Hr').
      split; intros [r' [Hin Hr']].
      * exists r'. split; [right; exact Hin | exact Hr'].
      * destruct Hin as [<- | Hin]; [congruence|]. exists r'. split; assumption.
Qed.

Lemma outer_loop_true_iff (lefts : list WordForm) (compound : Compound) :
  (forall l r, In l lefts -> In r (tl compound) -> pair_indexable self l r) ->
  outer_loop re cap replchars self lefts compound = Ok true
  <-> exists l, In l lefts
                /\ (forbid_check self l = true
                    \/ exists r, In r (tl compound)
                                 /\ check_pair re cap replchars self l r = Ok true).
Proof.
  induction lefts as [|l lefts IH]; simpl; intros Hindex.
  - split; [discriminate | intros [l [[] _]]].
  - assert (Hl : forall r, In r (tl compound) -> pair_indexable self l r).
    { intros r Hr. apply Hindex; [left; reflexivity | exact Hr]. }
    assert (Hrest : forall l' r, In l' lefts -> In r (tl compound) -> pair_indexable self l' r).
    { intros l' r Hl' Hr. apply Hindex; [right; exact Hl' | exact Hr]. }
    destruct (forbid_check self l) eqn:Hforbid.
    + split; [|reflexivity]. intros _. exists l. split; [left; reflexivity | left; exact Hforbid].
    + destruct (@inner_loop_total l (tl compound) Hl) as [b Hb].
      pose proof (@inner_loop_true_iff l (tl compound) Hl) as Hinner.
      rewrite Hb in *. simpl. destruct b.
      * split; [|reflexivity]. intros _. exists l.
        split; [left; reflexivity | right; apply Hinner; reflexivity].
      * rewrite (IH Hrest). split; intros [l' [Hin Hl']].
        -- exists l'. split; [right; exact Hin | exact Hl'].
        -- destruct Hin as [<- | Hin].
           ++ destruct Hl' as [Hl' | Hl']; [congruence|].
              apply Hinner in Hl'. discriminate.
           ++ exists l'. split; assumption.
Qed.

(** The pairs [bad_compound] goes through: every part but the last as the
    left one with every part but the first as the right one, wherever the
    two stand. *)
Lemma bad_compound_true_iff (compound : Compound) :
  texts_indexable self compound ->
  bad_compound' compound = Ok true
  <-> exists l, In l (removelast compound)
                /\ (forbid_check self l = true
                    \/ exists r, In r (tl compound)
                                 /\ check_pair re cap replchars self l r = Ok true).
Proof.
  intros Hindex. apply outer_loop_true_iff. intros l r Hl Hr Hcase.
  specialize (Hindex Hcase). rewrite Forall_forall in Hindex.
  split; apply Hindex; [apply in_removelast | apply in_tl]; assumption.
Qed.



End Properties.

(** ** The properties on the fixtures *)

Import Fixtures.

Lemma lookup_forbidden_word_witness :
  lookup_in forbidden "bad" false false = Ok false.
Proof.
  unfold lookup_in. apply lookup_forbidden_word.
  - reflexivity.
  - discriminate.
  - intros w [<- | []]; reflexivity.
Defined.

(** C2.  [lookup] and [analyze] raise [TypeError] when [capitalization] is
    off: on the dictionary of the one word [hello], [lookup("hello")] is
    [True] with the option on and raises with it off. *)
Theorem lookup_capitalization_off_raises :
  analyze_in hello "hello" false true = Raise TypeError
  /\ lookup_in hello "hello" false true = Raise TypeError
  /\ lookup_in hello "hello" true true = Ok true.
Proof. repeat split; reflexivity. Qed.

(** With ICONV [a] to [aa] and the one word [aa], [lookup("a")] looks for
    [aa] and finds it; [lookup("aa")] looks for [aaaa]. *)
Lemma lookup_iconv_differs :
  lookup_in doubling "a" true true
  <> lookup_in doubling (apply_iconv doubling "a") true true.
Proof. vm_compute. discriminate. Qed.

(** The shortcut looks at the word before ICONV: a forbidden [xes] is
    refused though its conversion [yes] is a word. *)
Lemma lookup_iconv_shortcut_differs :
  lookup_in shadowed "xes" true true = Ok false
  /\ lookup_in shadowed (apply_iconv shadowed "xes") true true = Ok true.
Proof. split; reflexivity. Qed.

Lemma lookup_iconv_stable_witness :
  lookup_in converting "xes" true true
  = lookup_in converting (apply_iconv converting "xes") true true.
Proof.
  unfold lookup_in. apply lookup_iconv_stable; reflexivity.
Defined.

(** [foo-bar] is accepted through the break search and not as a whole, and
    no splitting that is accepted has parts that make [foo-bar]. *)
Lemma break_parts_do_not_cover :
  lookup_in breaking "foo-bar" true true = Ok true
  /\ is_found_in breaking true true "foo-bar" = Ok false
  /\ forall parts,
       In parts (try_break MiniRe.engine breaking "foo-bar" 0) ->
       all_result (is_found_in breaking true true) (filter nonempty_str parts) = Ok true ->
       String.concat EmptyString (filter nonempty_str parts) <> "foo-bar".
Proof.
  split; [reflexivity|]. split; [reflexivity|].
  intros parts Hin Hall. vm_compute in Hin.
  destruct Hin as [<- | [<- | []]].
  - vm_compute in Hall. discriminate.
  - vm_compute. discriminate.
Qed.

Lemma lookup_break_splitting_witness :
  exists first more,
    In (woven_parts first more)
       (try_break MiniRe.engine breaking (apply_iconv breaking "foo-bar") 0)
    /\ broken_at MiniRe.engine breaking (apply_iconv breaking "foo-bar") first more
    /\ (break_spans_ordered MiniRe.engine breaking (apply_iconv breaking "foo-bar") = true ->
        weave first more = apply_iconv breaking "foo-bar")
    /\ forall part, In part (woven_parts first more) -> part <> EmptyString ->
                    is_found_in breaking true true part = Ok true.
Proof.
  unfold is_found_in. apply lookup_break_splitting; reflexivity.
Defined.

(** C5.  With COMPOUNDWORDSMAX 2 the compound search yields a compound of
    three parts, and [lookup] accepts the word it makes. *)
Theorem compound_words_max_exceeded :
  COMPOUNDWORDSMAX (aff two_words) = Some 2
  /\ map (map text) (items (compound_parts_in two_words "foobarbaz" true))
     = [["foo"; "bar"; "baz"]]
  /\ lookup_in two_words "foobarbaz" true true = Ok true.
Proof. repeat split; reflexivity. Qed.

(** C6.  A part with a prefix and a suffix that combine keeps as its text
    the word without the prefix: the compound found for [unlockedbar] has
    the texts [locked] and [bar]. *)
Theorem compound_text_not_input :
  map (map text) (items (compound_parts_in crossing "unlockedbar" true))
  = [["locked"; "bar"]]
  /\ map text (word_forms_in crossing "unlocked" NO (Some BEGIN) true) = ["locked"]
  /\ String.concat EmptyString ["locked"; "bar"] <> "unlockedbar".
Proof. repeat split; try reflexivity. vm_compute. discriminate. Qed.

Lemma word_forms_forbidden_return_witness :
  word_forms_in forbidden "cats" NO None true
  = word_forms_loop MiniCap.helper forbidden [WordForm_base "cats" "cats"] NO None true.
Proof.
  unfold word_forms_in.
  apply word_forms_forbidden_return
    with (form := mkWordForm "cats" "cat"
                    None (Some (mkAffix "A" EmptyString "s" "." true [])) None None)
         (after := []).
  - reflexivity.
  - right. reflexivity.
  - exists (mkWord "cat" ["A"; "!"]). split; [vm_compute; left; reflexivity | reflexivity].
Defined.

(** With two entries for [work], both compatible, the form of [work] is
    yielded twice. *)
Lemma form_yielded_twice :
  existsb (fun w => have_compatible_flags MiniCap.helper homonymous w
                      (WordForm_base "work" "work") None NO true)
          (homonyms (dic homonymous) "work" false) = true
  /\ form_yields_in homonymous (WordForm_base "work" "work") NO None true
     <> [WordForm_base "work" "work"]
  /\ word_forms_in homonymous "work" NO None true
     = [WordForm_base "work" "work"; WordForm_base "work" "work"].
Proof.
  split; [reflexivity|]. split; [|reflexivity].
  vm_compute. discriminate.
Qed.

(** C9.  [bad_compound] takes a part as the left and the right of one
    pair: the compound [xyz aaa xyz] is rejected under CHECKCOMPOUNDTRIPLE
    though no check holds for a left part that precedes its right part; the
    pair that rejects it is [aaa] with itself. *)
Theorem bad_compound_pairs_part_with_itself :
  let xyz := WordForm_base "xyz" "xyz" in
  let aaa := WordForm_base "aaa" "aaa" in
  items (compound_parts_by_flags MiniRe.engine MiniCap.helper triple
           (compound_fuel triple "xyzaaaxyz") "xyzaaaxyz" [] true)
  = [[xyz; aaa; xyz]]
  /\ bad_compound_in triple [xyz; aaa; xyz] = Ok true
  /\ lookup_in triple "xyzaaaxyz" true true = Ok false
  /\ forbid_check triple xyz = false
  /\ forbid_check triple aaa = false
  /\ check_pair_in triple xyz aaa = Ok false
  /\ check_pair_in triple xyz xyz = Ok false
  /\ check_pair_in triple aaa xyz = Ok false
  /\ check_pair_in triple aaa aaa = Ok true.
Proof. repeat split; reflexivity. Qed.


(** ** Further properties: the affix forms *)

Section AffixForms.

Variable re : Re.
Variable self : Analyzer.

Lemma good_suffix_more (f : option Flag) (required_flags forbidden_flags : list (option Flag))
    (crossproduct : bool) (sfx : Affix) :
  good_suffix (f :: required_flags) forbidden_flags crossproduct sfx = true ->
  mem_opt f (a_flags sfx) = true
  /\ good_suffix required_flags forbidden_flags crossproduct sfx = true.
Proof.
  unfold good_suffix. simpl. intros H.
  apply andb_true_iff in H. destruct H as [H Hforbidden].
  apply andb_true_iff in H. destruct H as [Hcross H].
  apply andb_true_iff in H. destruct H as [Hf Hrequired].
  split; [exact Hf|]. rewrite Hcross, Hrequired, Hforbidden. reflexivity.
Qed.

(** What [desuffix] builds: the text is the word, there is no prefix, the
    suffix stripped last is in [suffix] and passes [good_suffix] for the
    flags asked for; a suffix stripped before it is in [suffix2], only on a
    call that is not nested, passes [good_suffix] too, and has its flag
    among the flags of [suffix]. *)
Lemma desuffix_levels_forms (levels : nat) :
  forall word required_flags forbidden_flags nested crossproduct form,
    In form (desuffix_levels re self levels word required_flags forbidden_flags
                             nested crossproduct) ->
    text form = word /\ prefix form = None /\ prefix2 form = None
    /\ exists s,
         suffix form = Some s
         /\ good_suffix required_flags forbidden_flags crossproduct s = true
         /\ forall s2, suffix2 form = Some s2 ->
                       nested = false
                       /\ good_suffix required_flags forbidden_flags crossproduct s2 = true
                       /\ mem (a_flag s2) (a_flags s) = true.
Proof.
  induction levels as [|levels IH];
    intros word required_flags forbidden_flags nested crossproduct form Hin.
  - simpl in Hin. apply in_flat_map in Hin. destruct Hin as [sr [Hsr Hin]].
    apply filter_In in Hsr. destruct Hsr as [_ Hgood].
    apply andb_true_iff in Hgood. destruct Hgood as [Hgood _].
    assert (Hform : form = mkWordForm word
                             (re_sub re (snd sr) (a_strip (fst sr)) word)
                             None (Some (fst sr)) None None).
    { destruct Hin as [<- | Hin]; [reflexivity|]. destruct nested; contradiction. }
    subst form. simpl. repeat split; trivial.
    exists (fst sr). repeat split; trivial; discriminate.
  - simpl in Hin. apply in_flat_map in Hin. destruct Hin as [sr [Hsr Hin]].
    apply filter_In in Hsr. destruct Hsr as [_ Hgood].
    apply andb_true_iff in Hgood. destruct Hgood as [Hgood _].
    destruct Hin as [<- | Hin].
    + simpl. repeat split; trivial.
      exists (fst sr). repeat split; trivial; discriminate.
    + destruct nested; [contradiction|].
      apply in_map_iff in Hin. destruct Hin as [form2 [<- Hform2]].
      apply IH in Hform2.
      destruct Hform2 as [_ [Hprefix [Hprefix2 [s [Hs [Hsgood _]]]]]].
      apply good_suffix_more in Hsgood. destruct Hsgood as [Hflag Hsgood].
      simpl. repeat split; trivial.
      exists s. split; [exact Hs|]. split; [exact Hsgood|].
      intros s2 Hs2. injection Hs2 as <-. repeat split; trivial.
Qed.

(** The forms of [desuffix] have the word as text, a suffix and no prefix,
    and a second suffix only when the call is not nested: stripping goes
    two levels deep and no deeper. *)
Theorem desuffix_form_shape (word : string) (required_flags forbidden_flags : list (option Flag))
    (nested crossproduct : bool) (form : WordForm) :
  In form (desuffix re self word required_flags forbidden_flags nested crossproduct) ->
  text form = word /\ prefix form = None /\ prefix2 form = None
  /\ suffix form <> None
  /\ (nested = true -> suffix2 form = None).
Proof.
  intros Hin. apply desuffix_levels_forms in Hin.
  destruct Hin as [Htext [Hprefix [Hprefix2 [s [Hs [_ Hs2]]]]]].
  repeat split; trivial.
  - rewrite Hs. discriminate.
  - intros Hnested. destruct (suffix2 form) as [s2|] eqn:H2; [|reflexivity].
    destruct (Hs2 s2 eq_refl) as [Hfalse _]. congruence.
Qed.

(** When [desuffix] strips two suffixes, the flag of the outer one, kept in
    [suffix2], is among the flags the inner one, kept in [suffix], carries. *)
Theorem desuffix_second_suffix_flag (word : string)
    (required_flags forbidden_flags : list (option Flag))
    (nested crossproduct : bool) (form : WordForm) (s s2 : Affix) :
  In form (desuffix re self word required_flags forbidden_flags nested crossproduct) ->
  suffix form = Some s ->
  suffix2 form = Some s2 ->
  mem (a_flag s2) (a_flags s) = true.
Proof.
  intros Hin Hs Hs2. apply desuffix_levels_forms in Hin.
  destruct Hin as [_ [_ [_ [s' [Hs' [_ Hall]]]]]].
  rewrite Hs in Hs'. injection Hs' as <-.
  destruct (Hall s2 Hs2) as [_ [_ Hflag]]. exact Hflag.
Qed.

(** Called with [crossproduct=True], [desuffix] selects only suffixes that
    allow the cross product, at both levels. *)
Theorem desuffix_crossproduct_gate (word : string)
    (required_flags forbidden_flags : list (option Flag))
    (nested : bool) (form : WordForm) (s : Affix) :
  In form (desuffix re self word required_flags forbidden_flags nested true) ->
  suffix form = Some s \/ suffix2 form = Some s ->
  a_crossproduct s = true.
Proof.
  intros Hin Hs. apply desuffix_levels_forms in Hin.
  destruct Hin as [_ [_ [_ [s' [Hs' [Hgood Hall]]]]]].
  assert (Hgate : good_suffix required_flags forbidden_flags true s = true).
  { destruct Hs as [Hs | Hs].
    - rewrite Hs in Hs'. injection Hs' as <-. exact Hgood.
    - destruct (Hall s Hs) as [_ [Hgood2 _]]. exact Hgood2. }
  unfold good_suffix in Hgate. simpl in Hgate.
  apply andb_true_iff in Hgate. destruct Hgate as [Hgate _].
  apply andb_true_iff in Hgate. destruct Hgate as [Hgate _]. exact Hgate.
Qed.

(** Every suffix [desuffix] selects carries each required flag and none of
    the forbidden flags. *)
Theorem desuffix_flags_respected (word : string)
    (required_flags forbidden_flags : list (option Flag))
    (nested crossproduct : bool) (form : WordForm) (s : Affix) :
  In form (desuffix re self word required_flags forbidden_flags nested crossproduct) ->
  suffix form = Some s \/ suffix2 form = Some s ->
  (forall f, In f required_flags -> mem_opt f (a_flags s) = true)
  /\ (forall f, In f forbidden_flags -> mem_opt f (a_flags s) = false).
Proof.
  intros Hin Hs. apply desuffix_levels_forms in Hin.
  destruct Hin as [_ [_ [_ [s' [Hs' [Hgood Hall]]]]]].
  assert (Hgate : good_suffix required_flags forbidden_flags crossproduct s = true).
  { destruct Hs as [Hs | Hs].
    - rewrite Hs in Hs'. injection Hs' as <-. exact Hgood.
    - destruct (Hall s Hs) as [_ [Hgood2 _]]. exact Hgood2. }
  unfold good_suffix in Hgate.
  apply andb_true_iff in Hgate. destruct Hgate as [Hgate Hforbidden].
  apply andb_true_iff in Hgate. destruct Hgate as [_ Hrequired].
  rewrite forallb_forall in Hrequired, Hforbidden. split.
  - exact Hrequired.
  - intros f Hf. apply negb_true_iff. exact (Hforbidden f Hf).
Qed.

Lemma good_prefix_more (f : option Flag) (required_flags forbidden_flags : list (option Flag))
    (pfx : Affix) :
  good_prefix (f :: required_flags) forbidden_flags pfx = true ->
  mem_opt f (a_flags pfx) = true
  /\ good_prefix required_flags forbidden_flags pfx = true.
Proof.
  unfold good_prefix. simpl. intros H.
  apply andb_true_iff in H. destruct H as [H Hforbidden].
  apply andb_true_iff in H. destruct H as [Hf Hrequired].
  split; [exact Hf|]. rewrite Hrequired, Hforbidden. reflexivity.
Qed.

Lemma deprefix_levels_forms (levels : nat) :
  forall word required_flags forbidden_flags nested form,
    In form (deprefix_levels re self levels word required_flags forbidden_flags nested) ->
    text form = word /\ suffix form = None /\ suffix2 form = None
    /\ exists p,
         prefix form = Some p
         /\ good_prefix required_flags forbidden_flags p = true
         /\ forall p2, prefix2 form = Some p2 ->
                       nested = false
                       /\ good_prefix required_flags forbidden_flags p2 = true
                       /\ mem (a_flag p2) (a_flags p) = true.
Proof.
  induction levels as [|levels IH];
    intros word required_flags forbidden_flags nested form Hin.
  - simpl in Hin. apply in_flat_map in Hin. destruct Hin as [pr [Hpr Hin]].
    apply filter_In in Hpr. destruct Hpr as [_ Hgood].
    apply andb_true_iff in Hgood. destruct Hgood as [Hgood _].
    assert (Hform : form = mkWordForm word
                             (re_sub re (snd pr) (a_strip (fst pr)) word)
                             (Some (fst pr)) None None None).
    { destruct Hin as [<- | Hin]; [reflexivity|]. destruct nested; contradiction. }
    subst form. simpl. repeat split; trivial.
    exists (fst pr). repeat split; trivial; discriminate.
  - simpl in Hin. apply in_flat_map in Hin. destruct Hin as [pr [Hpr Hin]].
    apply filter_In in Hpr. destruct Hpr as [_ Hgood].
    apply andb_true_iff in Hgood. destruct Hgood as [Hgood _].
    destruct Hin as [<- | Hin].
    + simpl. repeat split; trivial.
      exists (fst pr). repeat split; trivial; discriminate.
    + destruct nested; [contradiction|].
      apply in_map_iff in Hin. destruct Hin as [form2 [<- Hform2]].
      apply IH in Hform2.
      destruct Hform2 as [_ [Hsuffix [Hsuffix2 [p [Hp [Hpgood _]]]]]].
      apply good_prefix_more in Hpgood. destruct Hpgood as [Hflag Hpgood].
      simpl. repeat split; trivial.
      exists p. split; [exact Hp|]. split; [exact Hpgood|].
      intros p2 Hp2. injection Hp2 as <-. repeat split; trivial.
Qed.

(** The forms of [deprefix] have the word as text, a prefix and no suffix;
    a second prefix comes only from a call that is not nested, and its flag
    is among the flags of the prefix stripped after it; every prefix
    selected carries the required flags and no forbidden one. *)
Theorem deprefix_form_shape (word : string) (required_flags forbidden_flags : list (option Flag))
    (nested : bool) (form : WordForm) :
  In form (deprefix re self word required_flags forbidden_flags nested) ->
  text form = word /\ suffix form = None /\ suffix2 form = None
  /\ exists p,
       prefix form = Some p
       /\ (forall f, In f required_flags -> mem_opt f (a_flags p) = true)
       /\ (forall f, In f forbidden_flags -> mem_opt f (a_flags p) = false)
       /\ forall p2, prefix2 form = Some p2 ->
                     nested = false
                     /\ mem (a_flag p2) (a_flags p) = true
                     /\ (forall f, In f required_flags -> mem_opt f (a_flags p2) = true)
                     /\ (forall f, In f forbidden_flags -> mem_opt f (a_flags p2) = false).
Proof.
  assert (Hgate : forall p, good_prefix required_flags forbidden_flags p = true ->
            (forall f, In f required_flags -> mem_opt f (a_flags p) = true)
            /\ (forall f, In f forbidden_flags -> mem_opt f (a_flags p) = false)).
  { intros p Hgood. unfold good_prefix in Hgood.
    apply andb_true_iff in Hgood. destruct Hgood as [Hrequired Hforbidden].
    rewrite forallb_forall in Hrequired, Hforbidden. split.
    - exact Hrequired.
    - intros f Hf. apply negb_true_iff. exact (Hforbidden f Hf). }
  intros Hin. apply deprefix_levels_forms in Hin.
  destruct Hin as [Htext [Hsuffix [Hsuffix2 [p [Hp [Hgood Hall]]]]]].
  repeat split; trivial.
  exists p. split; [exact Hp|].
  destruct (Hgate p Hgood) as [Hrequired Hforbidden].
  split; [exact Hrequired|]. split; [exact Hforbidden|].
  intros p2 Hp2. destruct (Hall p2 Hp2) as [Hnested [Hgood2 Hflag]].
  destruct (Hgate p2 Hgood2) as [Hrequired2 Hforbidden2].
  repeat split; trivial.
Qed.


(** Without COMPOUNDPERMITFLAG the parts of a compound take affixes at the
    edges of the compound only: a part in the middle is tried as it is, a
    first part gets no suffix stripped and a last part no prefix. *)
Theorem try_affix_forms_in_compound (word : string) :
  truthy (COMPOUNDPERMITFLAG (aff self)) = false ->
  try_affix_forms re self word (Some MIDDLE) = [WordForm_base word word]
  /\ (forall form, In form (try_affix_forms re self word (Some BEGIN)) ->
                   suffix form = None /\ suffix2 form = None)
  /\ (forall form, In form (try_affix_forms re self word (Some END)) ->
                   prefix form = None /\ prefix2 form = None).
Proof.
  intros Hpermit. unfold try_affix_forms. rewrite Hpermit. simpl. split; [reflexivity|].
  split; intros form [<- | Hin]; try (split; reflexivity).
  - apply in_flat_map in Hin. destruct Hin as [form1 [Hform1 [<- | []]]].
    apply deprefix_levels_forms in Hform1. split; apply Hform1.
  - try rewrite app_nil_r in Hin. apply desuffix_levels_forms in Hin. split; apply Hin.
Qed.

End AffixForms.

(** ** Further properties: [word_forms], [lookup] and the break search *)

Section WordForms.

Variable re : Re.
Variable cap : Capitalization.
Variable replchars : string -> list (string * string) -> list Candidate.
Variable self : Analyzer.

Local Abbreviation compatible' := (have_compatible_flags cap self).

Lemma in_repeat {A} (x y : A) (n : nat) : In y (repeat x n) -> y = x.
Proof. induction n as [|n IH]; simpl; [contradiction | intros [<- | H]; auto]. Qed.

Lemma exact_loop_yields (ws : list Word) (form f : WordForm) (captype : Cap)
    (compoundpos : option CompoundPos) (allow_nosuggest found : bool) :
  In f (snd (exact_loop cap self ws form captype compoundpos allow_nosuggest found)) ->
  f = form
  /\ exists w, In w ws /\ compatible' w form compoundpos captype allow_nosuggest = true.
Proof.
  rewrite exact_loop_spec. simpl. intros Hin. split; [exact (in_repeat _ _ _ Hin)|].
  destruct (filter _ ws) as [|w ws'] eqn:Hfilter; [contradiction|].
  assert (Hw : In w (filter (fun w => compatible' w form compoundpos captype allow_nosuggest) ws)).
  { rewrite Hfilter. left. reflexivity. }
  apply filter_In in Hw. exists w. exact Hw.
Qed.

Lemma ignorecase_loop_yields (ws : list Word) (form f : WordForm) (captype : Cap)
    (compoundpos : option CompoundPos) (allow_nosuggest : bool) :
  In f (ignorecase_loop cap self ws form captype compoundpos allow_nosuggest) ->
  f = form
  /\ exists w, In w ws
               /\ (captype = ALL \/ cap_guess cap (w_stem w) = NO)
               /\ compatible' w form compoundpos captype allow_nosuggest = true.
Proof.
  induction ws as [|w ws IH]; simpl; [contradiction|].
  destruct (negb (Cap_eqb captype ALL) && negb (Cap_eqb (cap_guess cap (w_stem w)) NO))
    eqn:Hskip.
  - intros Hin. destruct (IH Hin) as [Hf [w' [Hw' H]]].
    split; [exact Hf|]. exists w'. split; [right; exact Hw' | exact H].
  - destruct (compatible' w form compoundpos captype allow_nosuggest) eqn:Hcompatible.
    + intros [<- | Hin].
      * split; [reflexivity|]. exists w. split; [left; reflexivity|].
        split; [|exact Hcompatible].
        apply andb_false_iff in Hskip. destruct Hskip as [Hskip | Hskip];
          apply negb_false_iff in Hskip.
        -- left. destruct captype; simpl in Hskip; congruence.
        -- right. destruct (cap_guess cap (w_stem w)); simpl in Hskip; congruence.
      * destruct (IH Hin) as [Hf [w' [Hw' H]]].
        split; [exact Hf|]. exists w'. split; [right; exact Hw' | exact H].
    + intros Hin. destruct (IH Hin) as [Hf [w' [Hw' H]]].
      split; [exact Hf|]. exists w'. split; [right; exact Hw' | exact H].
Qed.

Lemma ignorecase_loop_finds (ws : list Word) (form : WordForm) (captype : Cap)
    (compoundpos : option CompoundPos) (allow_nosuggest : bool) (w : Word) :
  In w ws ->
  captype = ALL \/ cap_guess cap (w_stem w) = NO ->
  compatible' w form compoundpos captype allow_nosuggest = true ->
  In form (ignorecase_loop cap self ws form captype compoundpos allow_nosuggest).
Proof.
  intros Hin Hcase Hcompatible. induction ws as [|w' ws IH]; simpl; [contradiction|].
  destruct Hin as [-> | Hin].
  - assert (Hskip : negb (Cap_eqb captype ALL)
                    && negb (Cap_eqb (cap_guess cap (w_stem w)) NO) = false).
    { destruct Hcase as [-> | ->]; simpl; [reflexivity | apply andb_false_r]. }
    rewrite Hskip, Hcompatible. left. reflexivity.
  - specialize (IH Hin).
    destruct (_ && _); [exact IH|].
    destruct (compatible' w' form compoundpos captype allow_nosuggest);
      [right; exact IH | exact IH].
Qed.

(** What a word that passes [have_compatible_flags] for a form has. *)
Lemma compatible_requirements (w : Word) (form : WordForm)
    (compoundpos : option CompoundPos) (captype : Cap) (allow_nosuggest : bool) :
  compatible' w form compoundpos captype allow_nosuggest = true ->
  let all_flags := w_flags w ++ affix_flags form in
  (allow_nosuggest = false -> mem_opt (NOSUGGEST (aff self)) (w_flags w) = false)
  /\ (forall p, prefix form = Some p -> mem (a_flag p) all_flags = true)
  /\ (forall s, suffix form = Some s -> mem (a_flag s) all_flags = true)
  /\ match compoundpos with
     | None => mem_opt (ONLYINCOMPOUND (aff self)) all_flags = false
     | Some pos =>
         mem_opt (COMPOUNDFLAG (aff self)) all_flags = true
         \/ mem_opt (match pos with
                     | BEGIN => COMPOUNDBEGIN (aff self)
                     | MIDDLE => COMPOUNDMIDDLE (aff self)
                     | END => COMPOUNDLAST (aff self)
                     end) all_flags = true
     end.
Proof.
  unfold have_compatible_flags. intros H. cbv zeta.
  destruct (negb allow_nosuggest && _) eqn:Hnosuggest; [discriminate|].
  destruct (truthy (KEEPCASE (aff self)) && _ && _); [discriminate|].
  destruct (truthy (NEEDAFFIX (aff self)) && _); [discriminate|].
  destruct (match prefix form with Some _ => _ | None => false end) eqn:Hprefix;
    [discriminate|].
  destruct (match suffix form with Some _ => _ | None => false end) eqn:Hsuffix;
    [discriminate|].
  split; [|split; [|split]].
  - intros ->. simpl in Hnosuggest. exact Hnosuggest.
  - intros p Hp. rewrite Hp in Hprefix. apply negb_false_iff. exact Hprefix.
  - intros s Hs. rewrite Hs in Hsuffix. apply negb_false_iff. exact Hsuffix.
  - destruct compoundpos as [pos|].
    + destruct (mem_opt (COMPOUNDFLAG (aff self)) _); [left; reflexivity|].
      right. destruct pos; exact H.
    + apply negb_true_iff. exact H.
Qed.

(** Every form [word_forms] yields is a form of [try_affix_forms] that did
    not stop the search, and a dictionary entry for its stem, found exactly
    or ignoring case, stands behind it: an entry that NOSUGGEST does not
    bar, whose flags with those of the affixes hold the flag of the prefix
    and of the suffix of the form, and, outside a compound, not
    ONLYINCOMPOUND; inside one, COMPOUNDFLAG or the flag of the position. *)
Theorem word_forms_sound (word : string) (captype : Cap) (compoundpos : option CompoundPos)
    (allow_nosuggest : bool) (form : WordForm) :
  In form (word_forms re cap self word captype compoundpos allow_nosuggest) ->
  In form (try_affix_forms re self word compoundpos)
  /\ forbidden_stop self form compoundpos = false
  /\ exists w,
       (In w (homonyms (dic self) (stem form) false)
        \/ In w (homonyms (dic self) (stem form) true))
       /\ compatible' w form compoundpos captype allow_nosuggest = true
       /\ (allow_nosuggest = false -> mem_opt (NOSUGGEST (aff self)) (w_flags w) = false)
       /\ (forall p, prefix form = Some p ->
                     mem (a_flag p) (w_flags w ++ affix_flags form) = true)
       /\ (forall s, suffix form = Some s ->
                     mem (a_flag s) (w_flags w ++ affix_flags form) = true)
       /\ match compoundpos with
          | None => mem_opt (ONLYINCOMPOUND (aff self)) (w_flags w ++ affix_flags form) = false
          | Some pos =>
              mem_opt (COMPOUNDFLAG (aff self)) (w_flags w ++ affix_flags form) = true
              \/ mem_opt (match pos with
                          | BEGIN => COMPOUNDBEGIN (aff self)
                          | MIDDLE => COMPOUNDMIDDLE (aff self)
                          | END => COMPOUNDLAST (aff self)
                          end) (w_flags w ++ affix_flags form) = true
          end.
Proof.
  unfold word_forms. generalize (try_affix_forms re self word compoundpos) as forms.
  induction forms as [|f forms IH]; simpl; [contradiction|].
  destruct (forbidden_stop self f compoundpos) eqn:Hstop; [contradiction|].
  intros Hin. apply in_app_or in Hin. destruct Hin as [Hin | Hin].
  - assert (Hback : form = f
              /\ exists w, (In w (homonyms (dic self) (stem f) false)
                            \/ In w (homonyms (dic self) (stem f) true))
                           /\ compatible' w f compoundpos captype allow_nosuggest = true).
    { unfold form_yields in Hin. apply in_app_or in Hin. destruct Hin as [Hin | Hin].
      - apply exact_loop_yields in Hin. destruct Hin as [Hf [w [Hw Hc]]].
        split; [exact Hf|]. exists w. split; [left; exact Hw | exact Hc].
      - destruct (negb _); [|contradiction].
        apply ignorecase_loop_yields in Hin. destruct Hin as [Hf [w [Hw [_ Hc]]]].
        split; [exact Hf|]. exists w. split; [right; exact Hw | exact Hc]. }
    destruct Hback as [-> [w [Hw Hc]]].
    split; [left; reflexivity|]. split; [exact Hstop|].
    exists w. split; [exact Hw|]. split; [exact Hc|].
    exact (compatible_requirements _ _ _ _ _ Hc).
  - destruct (IH Hin) as [Hforms Hrest]. split; [right; exact Hforms | exact Hrest].
Qed.

Lemma compatible_allowing (w : Word) (form : WordForm)
    (compoundpos : option CompoundPos) (captype : Cap) :
  compatible' w form compoundpos captype false = true ->
  compatible' w form compoundpos captype true = true.
Proof.
  unfold have_compatible_flags. simpl.
  destruct (mem_opt (NOSUGGEST (aff self)) (w_flags w)); [discriminate | trivial].
Qed.

Lemma form_yields_allowing (form f : WordForm) (captype : Cap)
    (compoundpos : option CompoundPos) :
  In f (form_yields cap self form captype compoundpos false) ->
  In f (form_yields cap self form captype compoundpos true).
Proof.
  unfold form_yields. rewrite !exact_loop_spec. simpl.
  set (strict := filter (fun w => compatible' w form compoundpos captype false) _).
  set (loose := filter (fun w => compatible' w form compoundpos captype true) _).
  assert (Hsub : forall w, In w strict -> In w loose).
  { intros w Hw. apply filter_In in Hw. apply filter_In.
    split; [apply Hw | apply compatible_allowing; apply Hw]. }
  intros Hin. apply in_app_or in Hin. apply in_or_app.
  destruct loose as [|w0 loose'] eqn:Hloose.
  - right. simpl. destruct strict as [|w strict'].
    + destruct Hin as [[] | Hin]. simpl in Hin.
      apply ignorecase_loop_yields in Hin. destruct Hin as [-> [w [Hw [Hcase Hc]]]].
      apply ignorecase_loop_finds with (w := w);
        [exact Hw | exact Hcase | apply compatible_allowing; exact Hc].
    + exfalso. exact (Hsub w (or_introl eq_refl)).
  - left. assert (Hf : f = form).
    { destruct Hin as [Hin | Hin]; [exact (in_repeat _ _ _ Hin)|].
      destruct (negb _); [|contradiction].
      apply ignorecase_loop_yields in Hin. apply Hin. }
    subst f. simpl. left. reflexivity.
Qed.

(** Barring the NOSUGGEST words adds no form: what [word_forms] yields with
    [allow_nosuggest=False] it yields with [allow_nosuggest=True] too. *)
Theorem word_forms_allow_nosuggest (word : string) (captype : Cap)
    (compoundpos : option CompoundPos) (form : WordForm) :
  In form (word_forms re cap self word captype compoundpos false) ->
  In form (word_forms re cap self word captype compoundpos true).
Proof.
  unfold word_forms. generalize (try_affix_forms re self word compoundpos) as forms.
  induction forms as [|f forms IH]; simpl; [contradiction|].
  destruct (forbidden_stop self f compoundpos); [contradiction|].
  intros Hin. apply in_app_or in Hin. apply in_or_app.
  destruct Hin as [Hin | Hin].
  - left. apply form_yields_allowing. exact Hin.
  - right. exact (IH Hin).
Qed.

(** *** [lookup] *)

Lemma any_gen_chain {A} (g1 g2 : gen A) :
  any_gen g1 = Ok true -> any_gen (gen_chain g1 g2) = Ok true.
Proof.
  unfold any_gen, gen_chain. destruct g1 as [[|x l] e]; simpl.
  - destruct e; discriminate.
  - destruct e; reflexivity.
Qed.

(** A word that [cap.variants] puts first among its variants, that ICONV
    leaves as it is and that the forbidden shortcut lets through is
    accepted as soon as one dictionary entry for it is compatible with it
    taken whole. *)
Theorem lookup_dictionary_word (word : string) (allow_nosuggest : bool)
    (captype : Cap) (others : list string) (w : Word) :
  forbidden_shortcut self word = false ->
  apply_iconv self word = word ->
  cap_variants cap word = (captype, word :: others) ->
  In w (homonyms (dic self) word false) ->
  compatible' w (WordForm_base word word) None captype allow_nosuggest = true ->
  lookup re cap replchars self word true allow_nosuggest = Ok true.
Proof.
  intros Hshortcut Hiconv Hvariants Hw Hcompatible.
  unfold lookup. rewrite Hshortcut, Hiconv.
  assert (Hfound : is_found re cap replchars self true allow_nosuggest word = Ok true).
  { unfold is_found, analyze. rewrite Hvariants. cbn [rbind gen_for].
    apply any_gen_chain. unfold analyze_internal. apply any_gen_chain.
    unfold word_forms, try_affix_forms. cbn [word_forms_loop].
    unfold forbidden_stop. cbn [is_some is_base WordForm_base prefix suffix negb orb andb].
    unfold form_yields. rewrite exact_loop_spec. cbn [stem WordForm_base snd].
    assert (Hin : In w (filter (fun w => compatible' w (WordForm_base word word) None
                                           captype allow_nosuggest)
                               (homonyms (dic self) word false))).
    { apply filter_In. split; assumption. }
    unfold WordForm_base in *.
    destruct (filter _ (homonyms (dic self) word false)); [contradiction|].
    reflexivity. }
  rewrite Hfound. reflexivity.
Qed.

(** A word that ICONV turns into (or leaves as) the empty string is
    accepted whenever [is_found] returns for it, found or not: its only
    splitting has no part to look up. *)
Theorem lookup_empty_word (word : string) (capitalization allow_nosuggest b : bool) :
  forbidden_shortcut self word = false ->
  apply_iconv self word = EmptyString ->
  is_found re cap replchars self capitalization allow_nosuggest EmptyString = Ok b ->
  lookup re cap replchars self word capitalization allow_nosuggest = Ok true.
Proof.
  intros Hshortcut Hiconv Hfound. unfold lookup.
  rewrite Hshortcut, Hiconv, Hfound. cbn [rbind].
  destruct b; reflexivity.
Qed.

(** [try_break] goes 11 levels deep and no deeper: a splitting it yields at
    [depth] has one part at least and [11 - depth] at most. *)
Theorem try_break_depth (text : string) (depth : nat) (parts : list string) :
  In parts (try_break re self text depth) ->
  1 <= List.length parts <= 11 - depth.
Proof.
  unfold try_break. generalize (11 - depth) as levels. intros levels. revert text parts.
  induction levels as [|levels IH]; intros text parts; simpl.
  - contradiction.
  - intros [<- | Hin]; [simpl; lia|].
    apply in_flat_map in Hin. destruct Hin as [pat [_ Hin]].
    apply in_flat_map in Hin. destruct Hin as [m [_ Hin]].
    apply in_map_iff in Hin. destruct Hin as [breaking [<- Hbreaking]].
    apply IH in Hbreaking. simpl. lia.
Qed.

Lemma break_loop_accepts (capitalization allow_nosuggest : bool)
    (splittings : list (list string)) (parts : list string) :
  (forall parts', In parts' splittings ->
     exists b, all_result (is_found re cap replchars self capitalization allow_nosuggest)
                          (filter nonempty_str parts') = Ok b) ->
  In parts splittings ->
  all_result (is_found re cap replchars self capitalization allow_nosuggest)
             (filter nonempty_str parts) = Ok true ->
  break_loop re cap replchars self capitalization allow_nosuggest splittings = Ok true.
Proof.
  induction splittings as [|parts' splittings IH]; simpl; intros Hreturns Hin Hall.
  - contradiction.
  - destruct (Hreturns parts' (or_introl eq_refl)) as [b Hb]. rewrite Hb. cbn [rbind].
    destruct b; [reflexivity|].
    destruct Hin as [-> | Hin]; [congruence|].
    apply IH; [|exact Hin | exact Hall].
    intros p Hp. apply Hreturns. right. exact Hp.
Qed.

(** [lookup] accepts a word when one splitting of [try_break] has every
    part that is not empty accepted by [is_found], provided the forbidden
    shortcut lets the word through and [is_found] raises neither on the
    word nor on the splittings. *)
Theorem lookup_break_accepts (word : string) (capitalization allow_nosuggest b : bool)
    (parts : list string) :
  forbidden_shortcut self word = false ->
  is_found re cap replchars self capitalization allow_nosuggest (apply_iconv self word)
  = Ok b ->
  (forall parts', In parts' (try_break re self (apply_iconv self word) 0) ->
     exists b', all_result (is_found re cap replchars self capitalization allow_nosuggest)
                           (filter nonempty_str parts') = Ok b') ->
  In parts (try_break re self (apply_iconv self word) 0) ->
  all_result (is_found re cap replchars self capitalization allow_nosuggest)
             (filter nonempty_str parts) = Ok true ->
  lookup re cap replchars self word capitalization allow_nosuggest = Ok true.
Proof.
  intros Hshortcut Hwhole Hreturns Hin Hall. unfold lookup.
  rewrite Hshortcut, Hwhole. cbn [rbind].
  destruct b; [reflexivity|].
  apply break_loop_accepts with (parts := parts); assumption.
Qed.

End WordForms.

(** ** Further properties: the compound search *)

Section Compounds.

Variable re : Re.
Variable cap : Capitalization.
Variable replchars : string -> list (string * string) -> list Candidate.
Variable self : Analyzer.

Lemma append_nil_r (s : string) : (s ++ EmptyString)%string = s.
Proof. induction s as [|c s IH]; simpl; [reflexivity | rewrite IH; reflexivity]. Qed.

Lemma concat_cons (s : string) (l : list string) :
  String.concat EmptyString (s :: l) = (s ++ String.concat EmptyString l)%string.
Proof. destruct l; simpl; [rewrite append_nil_r|]; reflexivity. Qed.

Lemma length_take (n : nat) (s : string) :
  n <= String.length s -> String.length (Py.take n s) = n.
Proof.
  revert s. induction n as [|n IH]; intros [|c s] Hn; simpl in *; try reflexivity.
  - lia.
  - rewrite IH; [reflexivity | lia].
Qed.

Lemma split_position_bounds (word_rest : string) (pos : nat) :
  In pos (split_positions self word_rest) ->
  COMPOUNDMIN (aff self) <= pos
  /\ pos + COMPOUNDMIN (aff self) <= String.length word_rest.
Proof.
  unfold split_positions. intros Hpos. apply in_seq in Hpos. lia.
Qed.

(** *** By rules *)

(** A compound of [compound_parts_by_rules] tiles the rest of the word
    with forms that have no affix: the texts of its parts, one after the
    other, make [word_rest], each part has its text as its stem, and, when
    the search starts from the whole word, each text has COMPOUNDMIN
    characters or more. *)
Theorem compound_parts_by_rules_tiles (fuel : nat) :
  forall word_rest prev_parts rules allow_nosuggest compound,
    In compound
       (items (compound_parts_by_rules re self fuel word_rest prev_parts rules
                                       allow_nosuggest)) ->
    String.concat EmptyString (map text compound) = word_rest
    /\ Forall (fun form => form = WordForm_base (text form) (text form)) compound
    /\ (prev_parts = [] \/ COMPOUNDMIN (aff self) <= String.length word_rest ->
        Forall (fun form => COMPOUNDMIN (aff self) <= String.length (text form)) compound).
Proof.
  induction fuel as [|fuel IH];
    intros word_rest prev_parts rules allow_nosuggest compound; simpl.
  - contradiction.
  - match goal with
    | |- In _ (items (if _ then gen_of_list ?w else _)) -> _ =>
        assert (Hwhole : forall c, In c w ->
                  prev_parts <> [] /\ c = [WordForm_base word_rest word_rest])
    end.
    { intros c Hc. destruct prev_parts as [|p ps]; simpl in Hc; [contradiction|].
      split; [discriminate|].
      apply in_flat_map in Hc. destruct Hc as [homonym [_ Hc]].
      destruct (existsb _ rules); simpl in Hc; [|contradiction].
      destruct Hc as [<- | []]. reflexivity. }
    assert (Hdone : prev_parts <> [] /\ compound = [WordForm_base word_rest word_rest] ->
              String.concat EmptyString (map text compound) = word_rest
              /\ Forall (fun form => form = WordForm_base (text form) (text form)) compound
              /\ (prev_parts = [] \/ COMPOUNDMIN (aff self) <= String.length word_rest ->
                  Forall (fun form => COMPOUNDMIN (aff self) <= String.length (text form))
                         compound)).
    { intros [Hprev ->]. simpl. repeat split.
      - constructor; [reflexivity | constructor].
      - intros [Hnil | Hmin]; [contradiction|]. constructor; [exact Hmin | constructor]. }
    destruct (stop_splitting self word_rest (List.length prev_parts)).
    + intros Hin. apply Hdone, Hwhole, Hin.
    + intros Hin. apply in_gen_chain in Hin. destruct Hin as [Hin | Hin].
      * apply Hdone, Hwhole, Hin.
      * apply in_gen_for in Hin. destruct Hin as [pos [Hpos Hin]].
        apply in_gen_for in Hin. destruct Hin as [homonym [_ Hin]].
        destruct (nonempty (filter _ rules)); simpl in Hin; [|contradiction].
        apply in_map_iff in Hin. destruct Hin as [rest [<- Hrest]].
        apply split_position_bounds in Hpos. destruct Hpos as [Hlow Hhigh].
        apply IH in Hrest. destruct Hrest as [Hconcat [Hbase Hlong]].
        split; [|split].
        -- cbn [map]. rewrite concat_cons, Hconcat. simpl. apply take_drop.
        -- constructor; [reflexivity | exact Hbase].
        -- intros _. constructor.
           ++ simpl. rewrite length_take; lia.
           ++ apply Hlong. right. rewrite length_drop. lia.
Qed.

(** A compound of [compound_parts_by_rules] is licensed by a rule: there is
    a dictionary entry for the text of each part such that the flags of the
    entries of the parts before and of these entries are fully matched by
    one of the rules. *)
Theorem compound_parts_by_rules_licensed (fuel : nat) :
  forall word_rest prev_parts rules allow_nosuggest compound,
    In compound
       (items (compound_parts_by_rules re self fuel word_rest prev_parts rules
                                       allow_nosuggest)) ->
    exists entries,
      Forall2 (fun form entry => In entry (homonyms (dic self) (text form) false))
              compound entries
      /\ existsb (fun r => fullmatch re r (map w_flags (prev_parts ++ entries))) rules = true.
Proof.
  induction fuel as [|fuel IH];
    intros word_rest prev_parts rules allow_nosuggest compound; simpl.
  - contradiction.
  - match goal with
    | |- In _ (items (if _ then gen_of_list ?w else _)) -> ?G =>
        assert (Hwhole : forall c, In c w -> c = compound -> G)
    end.
    { intros c Hc <-. destruct prev_parts as [|p ps]; simpl in Hc; [contradiction|].
      apply in_flat_map in Hc. destruct Hc as [homonym [Hhomonym Hc]].
      destruct (existsb _ rules) eqn:Hrule; simpl in Hc; [|contradiction].
      destruct Hc as [<- | []]. exists [homonym]. split.
      - constructor; [exact Hhomonym | constructor].
      - exact Hrule. }
    destruct (stop_splitting self word_rest (List.length prev_parts)).
    + intros Hin. exact (Hwhole _ Hin eq_refl).
    + intros Hin. apply in_gen_chain in Hin. destruct Hin as [Hin | Hin].
      * exact (Hwhole _ Hin eq_refl).
      * apply in_gen_for in Hin. destruct Hin as [pos [_ Hin]].
        apply in_gen_for in Hin. destruct Hin as [homonym [Hhomonym Hin]].
        destruct (nonempty (filter _ rules)); simpl in Hin; [|contradiction].
        apply in_map_iff in Hin. destruct Hin as [rest [<- Hrest]].
        apply IH in Hrest. destruct Hrest as [entries [Hentries Hrule]].
        exists (homonym :: entries). split.
        -- constructor; [exact Hhomonym | exact Hentries].
        -- rewrite <- app_assoc in Hrule. exact Hrule.
Qed.

(** *** By flags *)

Lemma word_forms_of_affix_forms (word : string) (captype : Cap)
    (compoundpos : option CompoundPos) (allow_nosuggest : bool) (form : WordForm) :
  In form (word_forms re cap self word captype compoundpos allow_nosuggest) ->
  In form (try_affix_forms re self word compoundpos).
Proof.
  unfold word_forms. generalize (try_affix_forms re self word compoundpos) as forms.
  induction forms as [|f forms IH]; simpl; [contradiction|].
  destruct (forbidden_stop self f compoundpos); [contradiction|].
  intros Hin. apply in_app_or in Hin. destruct Hin as [Hin | Hin].
  - left. unfold form_yields in Hin. apply in_app_or in Hin. destruct Hin as [Hin | Hin].
    + apply exact_loop_yields in Hin. symmetry. apply Hin.
    + destruct (negb _); [|contradiction].
      apply ignorecase_loop_yields in Hin. symmetry. apply Hin.
  - right. exact (IH Hin).
Qed.

Lemma affix_form_text_or_both (word : string) (compoundpos : option CompoundPos)
    (form : WordForm) :
  In form (try_affix_forms re self word compoundpos) ->
  text form = word \/ (prefix form <> None /\ suffix form <> None).
Proof.
  intros Hin. unfold try_affix_forms in Hin.
  destruct Hin as [<- | Hin]; [left; reflexivity|].
  apply in_app_or in Hin. destruct Hin as [Hin | Hin].
  - left. destruct (match compoundpos with Some _ => _ | None => true end) in Hin;
      [|contradiction].
    apply desuffix_levels_forms in Hin. apply Hin.
  - match type of Hin with
    | In _ (if ?allowed then _ else _) => destruct allowed; [|contradiction]
    end.
    apply in_flat_map in Hin. destruct Hin as [form1 [Hform1 Hin]].
    apply deprefix_levels_forms in Hform1.
    destruct Hform1 as [Htext1 [_ [_ [p [Hp _]]]]].
    destruct Hin as [<- | Hin]; [left; exact Htext1|].
    right.
    match type of Hin with
    | In _ (if ?both then _ else _) => destruct both; [|contradiction]
    end.
    apply in_map_iff in Hin. destruct Hin as [form2 [<- Hform2]].
    apply desuffix_levels_forms in Hform2.
    destruct Hform2 as [_ [_ [_ [s [Hs _]]]]]. simpl.
    split; [rewrite Hp | rewrite Hs]; discriminate.
Qed.

Lemma compound_parts_by_flags_slices (fuel : nat) :
  forall word_rest prev_parts allow_nosuggest compound,
    In compound
       (items (compound_parts_by_flags re cap self fuel word_rest prev_parts
                                       allow_nosuggest)) ->
    exists slices,
      String.concat EmptyString slices = word_rest
      /\ sliced re cap self allow_nosuggest (negb (nonempty prev_parts)) slices compound
      /\ (prev_parts = [] \/ COMPOUNDMIN (aff self) <= String.length word_rest ->
          Forall (fun slice => COMPOUNDMIN (aff self) <= String.length slice) slices).
Proof.
  induction fuel as [|fuel IH]; intros word_rest prev_parts allow_nosuggest compound; simpl.
  - contradiction.
  - match goal with
    | |- In _ (items (if _ then gen_of_list ?w else _)) -> ?G =>
        assert (Hwhole : forall c, In c w -> c = compound -> G)
    end.
    { intros c Hc <-. destruct prev_parts as [|p ps]; simpl in Hc; [contradiction|].
      apply in_map_iff in Hc. destruct Hc as [form [<- Hform]].
      exists [word_rest]. simpl. repeat split.
      - constructor. exact Hform.
      - intros [Hnil | Hmin]; [discriminate|]. constructor; [exact Hmin | constructor]. }
    destruct (stop_splitting self word_rest (List.length prev_parts)).
    + intros Hin. exact (Hwhole _ Hin eq_refl).
    + intros Hin. apply in_gen_chain in Hin. destruct Hin as [Hin | Hin].
      * exact (Hwhole _ Hin eq_refl).
      * apply in_gen_for in Hin. destruct Hin as [pos [Hpos Hin]].
        apply in_gen_for in Hin. destruct Hin as [form [Hform Hin]].
        simpl in Hin. apply in_map_iff in Hin. destruct Hin as [rest [<- Hrest]].
        apply split_position_bounds in Hpos. destruct Hpos as [Hlow Hhigh].
        apply IH in Hrest. destruct Hrest as [slices [Hconcat [Hsliced Hlong]]].
        exists (Py.take pos word_rest :: slices). split; [|split].
        -- rewrite concat_cons, Hconcat. apply take_drop.
        -- constructor.
           ++ destruct (nonempty prev_parts); exact Hform.
           ++ replace (negb (nonempty (prev_parts ++ [form]))) with false in Hsliced
                by (destruct prev_parts; reflexivity).
              exact Hsliced.
        -- intros _. constructor.
           ++ rewrite length_take; lia.
           ++ apply Hlong. right. rewrite length_drop. lia.
Qed.

(** A compound of [compound_parts_by_flags] on a whole word parses slices
    of the word: the slices, one after the other, make the word, each has
    COMPOUNDMIN characters or more, the first part is a form of the first
    slice at BEGIN, the last part of the last slice at END, and a part
    between them of its slice at MIDDLE. *)
Theorem compound_parts_by_flags_parses (fuel : nat) (word : string)
    (allow_nosuggest : bool) (compound : Compound) :
  In compound
     (items (compound_parts_by_flags re cap self fuel word [] allow_nosuggest)) ->
  exists slices,
    String.concat EmptyString slices = word
    /\ sliced re cap self allow_nosuggest true slices compound
    /\ Forall (fun slice => COMPOUNDMIN (aff self) <= String.length slice) slices.
Proof.
  intros Hin. apply compound_parts_by_flags_slices in Hin.
  destruct Hin as [slices [Hconcat [Hsliced Hlong]]].
  exists slices. split; [exact Hconcat|]. split; [exact Hsliced|].
  apply Hlong. left. reflexivity.
Qed.

Lemma sliced_texts (allow_nosuggest first : bool) (slices : list string)
    (compound : list WordForm) :
  sliced re cap self allow_nosuggest first slices compound ->
  (forall form, In form compound -> prefix form = None \/ suffix form = None) ->
  map text compound = slices.
Proof.
  assert (Htext : forall slice pos form,
            In form (word_forms re cap self slice NO (Some pos) allow_nosuggest) ->
            prefix form = None \/ suffix form = None ->
            text form = slice).
  { intros slice pos form Hform Hone.
    apply word_forms_of_affix_forms, affix_form_text_or_both in Hform.
    destruct Hform as [Hform | [Hprefix Hsuffix]]; [exact Hform|].
    destruct Hone; contradiction. }
  induction 1 as [slice form Hform | first slice form slices compound Hform Hrest IH];
    intros Hone.
  - simpl. rewrite (Htext _ _ _ Hform); [reflexivity | apply Hone; left; reflexivity].
  - simpl. rewrite (Htext _ _ _ Hform) by (apply Hone; left; reflexivity).
    rewrite IH; [reflexivity|]. intros f Hf. apply Hone. right. exact Hf.
Qed.

(** The texts of the parts of a compound of [compound_parts_by_flags], one
    after the other, make the rest of the word it was found in, when no
    part has both a prefix and a suffix. *)
Theorem compound_parts_by_flags_texts (fuel : nat) (word_rest : string)
    (prev_parts : list WordForm) (allow_nosuggest : bool) (compound : Compound) :
  In compound
     (items (compound_parts_by_flags re cap self fuel word_rest prev_parts
                                     allow_nosuggest)) ->
  (forall form, In form compound -> prefix form = None \/ suffix form = None) ->
  String.concat EmptyString (map text compound) = word_rest.
Proof.
  intros Hin Hone. apply compound_parts_by_flags_slices in Hin.
  destruct Hin as [slices [Hconcat [Hsliced _]]].
  rewrite (sliced_texts Hsliced Hone). exact Hconcat.
Qed.

(** *** [compound_parts] *)

Lemma compound_fuel_succ (word : string) :
  exists fuel, compound_fuel self word = S fuel.
Proof. unfold compound_fuel. exists (String.length word + match COMPOUNDWORDSMAX (aff self) with Some m => m | None => 0 end + 1). lia. Qed.

(** A word of fewer than twice COMPOUNDMIN characters is no compound:
    [compound_parts] yields nothing for it and ends without raising. *)
Theorem compound_parts_short_word (word : string) (allow_nosuggest : bool) :
  String.length word < COMPOUNDMIN (aff self) * 2 ->
  compound_parts re cap replchars self word allow_nosuggest = gen_of_list [].
Proof.
  intros Hshort.
  assert (Hstop : stop_splitting self word 0 = true).
  { unfold stop_splitting. apply orb_true_iff. left. apply Nat.ltb_lt. exact Hshort. }
  unfold compound_parts. destruct (compound_fuel_succ word) as [fuel ->].
  simpl. rewrite Hstop.
  destruct (_ || _); destruct (nonempty _); reflexivity.
Qed.

Lemma filter_not_passed {A} (bad : A -> result bool) (l : list A) (e : option exn) (x : A) :
  In x (items (filter_not bad l e)) -> bad x = Ok false.
Proof.
  induction l as [|y l IH]; simpl.
  - contradiction.
  - destruct (bad y) as [[|]|e'] eqn:Hy; simpl.
    + exact IH.
    + intros [<- | H]; [exact Hy | exact (IH H)].
    + contradiction.
Qed.

(** Every compound [compound_parts] yields has two parts or more and is
    one for which [bad_compound] returned [False]. *)
Theorem compound_parts_checked (word : string) (allow_nosuggest : bool) (compound : Compound) :
  In compound (items (compound_parts re cap replchars self word allow_nosuggest)) ->
  2 <= List.length compound
  /\ bad_compound re cap replchars self compound = Ok false.
Proof.
  intros Hin. split.
  - apply compound_parts_two_parts in Hin. exact Hin.
  - unfold compound_parts, gen_filter_not in Hin. exact (filter_not_passed _ _ _ _ Hin).
Qed.

Lemma compound_parts_by_rules_bound (fuel m : nat) :
  COMPOUNDWORDSMAX (aff self) = Some (S m) ->
  forall word_rest prev_parts rules allow_nosuggest compound,
    List.length prev_parts <= S m ->
    In compound
       (items (compound_parts_by_rules re self fuel word_rest prev_parts rules
                                       allow_nosuggest)) ->
    List.length prev_parts + List.length compound <= S m + 1.
Proof.
  intros Hmax. induction fuel as [|fuel IH];
    intros word_rest prev_parts rules allow_nosuggest compound Hprev; simpl.
  - contradiction.
  - match goal with
    | |- In _ (items (if _ then gen_of_list ?w else _)) -> _ =>
        assert (Hwhole : forall c, In c w ->
                  List.length prev_parts + List.length c <= S m + 1)
    end.
    { intros c Hc. destruct (nonempty prev_parts); [|contradiction].
      apply in_flat_map in Hc. destruct Hc as [homonym [_ Hc]].
      destruct (existsb _ rules); simpl in Hc; [|contradiction].
      destruct Hc as [<- | []]. simpl. lia. }
    destruct (stop_splitting self word_rest (List.length prev_parts)) eqn:Hstop.
    + apply Hwhole.
    + intros Hin. apply in_gen_chain in Hin. destruct Hin as [Hin | Hin].
      * apply Hwhole. exact Hin.
      * apply in_gen_for in Hin. destruct Hin as [pos [_ Hin]].
        apply in_gen_for in Hin. destruct Hin as [homonym [_ Hin]].
        destruct (nonempty (filter _ rules)); simpl in Hin; [|contradiction].
        apply in_map_iff in Hin. destruct Hin as [rest [<- Hrest]].
        unfold stop_splitting, words_max_reached in Hstop. rewrite Hmax in Hstop.
        apply orb_false_iff in Hstop. destruct Hstop as [_ Hstop].
        apply Nat.leb_gt in Hstop.
        apply IH in Hrest.
        -- rewrite length_app in Hrest. simpl in *. lia.
        -- rewrite length_app. simpl. lia.
Qed.

(** With COMPOUNDWORDSMAX set, no compound [compound_parts] yields has more
    than COMPOUNDWORDSMAX + 1 parts. *)
Theorem compound_parts_words_max (word : string) (allow_nosuggest : bool)
    (compound : Compound) (m : nat) :
  COMPOUNDWORDSMAX (aff self) = Some (S m) ->
  In compound (items (compound_parts re cap replchars self word allow_nosuggest)) ->
  List.length compound <= S m + 1.
Proof.
  intros Hmax Hin. unfold compound_parts, gen_filter_not in Hin.
  apply in_filter_not in Hin. apply in_gen_chain in Hin.
  destruct Hin as [Hin | Hin].
  - destruct (_ || _); simpl in Hin; [|contradiction].
    eapply compound_parts_by_flags_bound in Hin; [|exact Hmax|]; simpl in *; lia.
  - destruct (nonempty _); simpl in Hin; [|contradiction].
    eapply compound_parts_by_rules_bound in Hin; [|exact Hmax|]; simpl in *; lia.
Qed.

(** *** Exceptions *)

Lemma check_pair_raises (left_paradigm right_paradigm : WordForm) (e : exn) :
  check_pair re cap replchars self left_paradigm right_paradigm = Raise e ->
  e = IndexError
  /\ CHECKCOMPOUNDCASE (aff self) = true
  /\ (text left_paradigm = EmptyString \/ text right_paradigm = EmptyString).
Proof.
  unfold check_pair.
  destruct (rep_check _ _ _ _ _ _); [discriminate|].
  destruct (triple_check _ _ _); [discriminate|].
  unfold case_check. destruct (CHECKCOMPOUNDCASE (aff self)).
  - destruct (text right_paradigm) as [|r rest].
    + intros H. injection H as <-. repeat split. right. reflexivity.
    + destruct (last_char (text left_paradigm)) eqn:Hlast.
      * simpl. destruct (_ && _); discriminate.
      * intros H. injection H as <-. repeat split. left.
        destruct (text left_paradigm) as [|c s]; [reflexivity|].
        destruct (@last_char_some (String c s)) as [x Hx];
          [discriminate | congruence].
  - simpl. discriminate.
Qed.

Lemma inner_loop_raises (left_paradigm : WordForm) (rights : list WordForm) (e : exn) :
  inner_loop re cap replchars self left_paradigm rights = Raise e ->
  e = IndexError
  /\ CHECKCOMPOUNDCASE (aff self) = true
  /\ exists form, In form (left_paradigm :: rights) /\ text form = EmptyString.
Proof.
  induction rights as [|r rights IH]; simpl; [discriminate|].
  destruct (check_pair _ _ _ _ left_paradigm r) as [[|]|e'] eqn:Hpair; simpl.
  - discriminate.
  - intros H. destruct (IH H) as [He [Hcase [form [Hin Hempty]]]].
    repeat split; trivial. exists form. split; [|exact Hempty].
    destruct Hin as [<- | Hin]; [left; reflexivity | right; right; exact Hin].
  - intros H. injection H as <-. apply check_pair_raises in Hpair.
    destruct Hpair as [He [Hcase Hempty]]. repeat split; trivial.
    destruct Hempty as [Hempty | Hempty].
    + exists left_paradigm. split; [left; reflexivity | exact Hempty].
    + exists r. split; [right; left; reflexivity | exact Hempty].
Qed.

(** [bad_compound] raises nothing but [IndexError], and only with
    CHECKCOMPOUNDCASE on and a part of the compound that has an empty
    text. *)
Theorem bad_compound_raises (compound : Compound) (e : exn) :
  bad_compound re cap replchars self compound = Raise e ->
  e = IndexError
  /\ CHECKCOMPOUNDCASE (aff self) = true
  /\ exists form, In form compound /\ text form = EmptyString.
Proof.
  unfold bad_compound.
  assert (Hloop : forall lefts,
            (forall l, In l lefts -> In l compound) ->
            outer_loop re cap replchars self lefts compound = Raise e ->
            e = IndexError
            /\ CHECKCOMPOUNDCASE (aff self) = true
            /\ exists form, In form compound /\ text form = EmptyString).
  { induction lefts as [|l lefts IH]; simpl; intros Hsub; [discriminate|].
    destruct (forbid_check self l); [discriminate|].
    destruct (inner_loop _ _ _ _ l (tl compound)) as [[|]|e'] eqn:Hinner; simpl.
    - discriminate.
    - apply IH. intros l' Hl'. apply Hsub. right. exact Hl'.
    - intros H. injection H as <-. apply inner_loop_raises in Hinner.
      destruct Hinner as [He [Hcase [form [Hin Hempty]]]]. repeat split; trivial.
      exists form. split; [|exact Hempty].
      destruct Hin as [<- | Hin]; [apply Hsub; left; reflexivity|].
      destruct compound; [contradiction | right; exact Hin]. }
  apply Hloop. intros l Hl.
  clear Hloop. induction compound as [|x c IH]; simpl in Hl; [contradiction|].
  destruct c as [|y c]; [contradiction|].
  destruct Hl as [<- | Hl]; [left; reflexivity | right; exact (IH Hl)].
Qed.








End Compounds.

(** ** Further properties: what [compile] builds *)

Lemma split_on_joins (sep : ascii) (s : string) :
  Py.split_on sep s <> []
  /\ String.concat (String sep EmptyString) (Py.split_on sep s) = s
  /\ Forall (fun piece => Py.has_char sep piece = false) (Py.split_on sep s).
Proof.
  induction s as [|c s [Hsome [Hjoin Hpieces]]]; simpl.
  - repeat split; [discriminate | constructor; [reflexivity | constructor]].
  - destruct (Ascii.eqb c sep) eqn:Hc.
    + apply Ascii.eqb_eq in Hc. subst c. repeat split.
      * discriminate.
      * destruct (Py.split_on sep s) as [|p ps]; [contradiction|].
        change (String.concat (String sep EmptyString) (EmptyString :: p :: ps))
          with (String sep (String.concat (String sep EmptyString) (p :: ps))).
        rewrite Hjoin. reflexivity.
      * constructor; [reflexivity | exact Hpieces].
    + destruct (Py.split_on sep s) as [|p ps]; [contradiction|]. repeat split.
      * discriminate.
      * destruct ps as [|q qs].
        -- simpl in *. rewrite Hjoin. reflexivity.
        -- change (String.concat (String sep EmptyString) (String c p :: q :: qs))
             with (String c (String.concat (String sep EmptyString) (p :: q :: qs))).
           rewrite Hjoin. reflexivity.
      * inversion Hpieces as [|? ? Hp Hps]; subst. constructor; [|exact Hps].
        simpl. rewrite Hp. rewrite Ascii.eqb_sym, Hc. reflexivity.
Qed.

Lemma split_side_parts (side stem0 : string) (flag0 : option string) :
  split_side side = Ok (stem0, flag0) ->
  side = (stem0 ++ match flag0 with
                   | Some f => String "/" f
                   | None => EmptyString
                   end)%string
  /\ Py.has_char "/" stem0 = false
  /\ match flag0 with
     | Some f => Py.has_char "/" f = false
     | None => True
     end.
Proof.
  unfold split_side. destruct (Py.has_char "/" side) eqn:Hslash.
  - destruct (split_on_joins "/" side) as [_ [Hjoin Hpieces]].
    destruct (Py.split_on "/" side) as [|s [|f [|x rest]]]; try discriminate.
    intros H. injection H as <- <-.
    inversion Hpieces as [|? ? Hs Hrest]; subst.
    inversion Hrest as [|? ? Hf _]; subst.
    repeat split; trivial; try (symmetry; exact Hjoin).
  - intros H. injection H as <- <-. repeat split; trivial.
    induction side as [|c side IH]; simpl; [reflexivity|]. f_equal.
    apply IH. simpl in Hslash. apply orb_false_iff in Hslash. apply Hslash.
Qed.

(** When a [CompoundPattern] is built, each side as it was declared is its
    stem, followed by a slash and its flag when it has a flag; neither the
    stem nor the flag holds a slash. *)
Theorem CompoundPattern_init_sides (row : string * string * option string)
    (pattern : CompoundPattern) :
  CompoundPattern_init row = Ok pattern ->
  let side stem0 flag0 :=
    (stem0 ++ match flag0 with
              | Some f => String "/" f
              | None => EmptyString
              end)%string in
  cp_left pattern = fst (fst row)
  /\ cp_right pattern = snd (fst row)
  /\ cp_replacement pattern = snd row
  /\ side (cp_left_stem pattern) (cp_left_flag pattern) = cp_left pattern
  /\ side (cp_right_stem pattern) (cp_right_flag pattern) = cp_right pattern
  /\ Py.has_char "/" (cp_left_stem pattern) = false
  /\ Py.has_char "/" (cp_right_stem pattern) = false.
Proof.
  destruct row as [[left_side right_side] replacement]. unfold CompoundPattern_init.
  destruct (split_side left_side) as [[ls lf]|e] eqn:Hleft; [|discriminate].
  destruct (split_side right_side) as [[rs rf]|e] eqn:Hright; [|discriminate].
  cbn [rbind]. intros H. injection H as <-. cbv zeta. simpl.
  apply split_side_parts in Hleft. apply split_side_parts in Hright.
  destruct Hleft as [Hl [Hls _]]. destruct Hright as [Hr [Hrs _]].
  repeat split; trivial; symmetry; assumption.
Qed.

Lemma groupby_groups {A} (key : A -> string) (l : list A) (k : string) (g : list A) :
  In (k, g) (Py.groupby key l) -> forall x, In x g -> key x = k /\ In x l.
Proof.
  revert k g. induction l as [|y l IH]; simpl; intros k g Hin; [contradiction|].
  destruct (Py.groupby key l) as [|[k0 g0] gs] eqn:Hgroups.
  - destruct Hin as [H | []]. injection H as <- <-.
    intros x [<- | []]. split; [reflexivity | left; reflexivity].
  - destruct (String.eqb (key y) k0) eqn:Hkey.
    + apply String.eqb_eq in Hkey. destruct Hin as [H | Hin].
      * injection H as <- <-. intros x [<- | Hx].
        -- split; [exact Hkey | left; reflexivity].
        -- destruct (IH k0 g0 (or_introl eq_refl) x Hx) as [Hk Hl].
           split; [exact Hk | right; exact Hl].
      * intros x Hx. destruct (IH k g (or_intror Hin) x Hx) as [Hk Hl].
        split; [exact Hk | right; exact Hl].
    + destruct Hin as [H | Hin].
      * injection H as <- <-. intros x [<- | []]. split; [reflexivity | left; reflexivity].
      * intros x Hx. destruct (IH k g Hin x Hx) as [Hk Hl].
        split; [exact Hk | right; exact Hl].
Qed.

Lemma in_trie_set (trie : Affixes) (key k : string) (vals v : list (Affix * Pattern)) :
  In (k, v) (trie_set trie key vals) -> (k = key /\ v = vals) \/ In (k, v) trie.
Proof.
  induction trie as [|[k0 v0] trie IH]; simpl.
  - intros [H | []]. injection H as <- <-. left. split; reflexivity.
  - destruct (String.eqb k0 key) eqn:Hkey.
    + apply String.eqb_eq in Hkey. intros [H | Hin].
      * injection H as <- <-. left. split; [exact Hkey | reflexivity].
      * right. right. exact Hin.
    + intros [H | Hin].
      * right. left. exact H.
      * destruct (IH Hin) as [Hnew | Hold]; [left; exact Hnew | right; right; exact Hold].
Qed.

Lemma trie_get_in (trie : Affixes) (key : string) (v : list (Affix * Pattern)) :
  trie_get trie key = Some v -> In (key, v) trie.
Proof.
  induction trie as [|[k0 v0] trie IH]; simpl; [discriminate|].
  destruct (String.eqb k0 key) eqn:Hkey.
  - apply String.eqb_eq in Hkey. intros H. injection H as <-. left. rewrite Hkey. reflexivity.
  - intros H. right. exact (IH H).
Qed.

Lemma startswith_take (n : nat) (s : string) : Py.startswith s (Py.take n s) = true.
Proof.
  revert s. induction n as [|n IH]; intros [|c s]; simpl; try reflexivity.
  rewrite Ascii.eqb_refl. apply IH.
Qed.

(** The index [compile] builds with [trie_set] over the groups of
    [groupby]: what a lookup in it returns. *)
Lemma index_lookup (key : Affix -> string) (regexp : Affix -> Pattern)
    (affixes : list Affix) (query : string) (a : Affix) (pattern : Pattern) :
  In (a, pattern)
     (Affixes_lookup
        (fold_left (fun trie kg => trie_set trie (fst kg) (map (fun x => (x, regexp x)) (snd kg)))
                   (Py.groupby key affixes) [])
        query) ->
  In a affixes /\ pattern = regexp a /\ Py.startswith query (key a) = true.
Proof.
  assert (Hfold : forall groups trie k v,
            (forall k' g, In (k', g) groups -> forall x, In x g -> key x = k' /\ In x affixes) ->
            (forall k' v', In (k', v') trie ->
               forall x p, In (x, p) v' -> key x = k' /\ In x affixes /\ p = regexp x) ->
            In (k, v)
               (fold_left (fun trie kg =>
                             trie_set trie (fst kg) (map (fun x => (x, regexp x)) (snd kg)))
                          groups trie) ->
            forall x p, In (x, p) v -> key x = k /\ In x affixes /\ p = regexp x).
  { induction groups as [|[k0 g0] groups IH]; simpl; intros trie k v Hgroups Htrie Hin.
    - exact (Htrie k v Hin).
    - refine (IH _ k v _ _ Hin).
      + intros k' g Hg. apply Hgroups. right. exact Hg.
      + intros k' v' Hv'. apply in_trie_set in Hv'. destruct Hv' as [[-> ->] | Hold].
        * intros x p Hxp. apply in_map_iff in Hxp. destruct Hxp as [y [Hy Hyg]].
          injection Hy as <- <-.
          destruct (Hgroups k0 g0 (or_introl eq_refl) y Hyg) as [Hk Hl].
          repeat split; trivial.
        * exact (Htrie k' v' Hold). }
  unfold Affixes_lookup, trie_prefixes. intros Hin.
  apply in_flat_map in Hin. destruct Hin as [[k v] [Hkv Hin]].
  apply in_flat_map in Hkv. destruct Hkv as [n [_ Hkv]].
  destruct (trie_get _ (Py.take n query)) as [v0|] eqn:Hget; [|contradiction].
  destruct Hkv as [H | []]. injection H as <- <-. simpl in Hin.
  apply trie_get_in in Hget.
  assert (Hempty : forall k' v', In (k', v') (@nil (string * list (Affix * Pattern))) ->
            forall x p, In (x, p) v' -> key x = k' /\ In x affixes /\ p = regexp x).
  { intros k' v' []. }
  destruct (Hfold _ _ _ _ (@groupby_groups _ key affixes) Hempty Hget a pattern Hin)
    as [Hk [Ha Hp]].
  repeat split; trivial. rewrite Hk. apply startswith_take.
Qed.

Lemma fold_left_ext {A B} (f g : A -> B -> A) (l : list B) (i : A) :
  (forall a b, f a b = g a b) -> fold_left f l i = fold_left g l i.
Proof.
  intros Hfg. revert i. induction l as [|b l IH]; intros i; simpl; [reflexivity|].
  rewrite Hfg. apply IH.
Qed.

Lemma rev_onto_append (s acc : string) :
  Py.rev_onto s acc = (Py.rev_onto s EmptyString ++ acc)%string.
Proof.
  revert acc. induction s as [|c s IH]; intros acc; simpl; [reflexivity|].
  rewrite (IH (String c acc)), (IH (String c EmptyString)).
  generalize (Py.rev_onto s EmptyString) as r. intros r.
  induction r as [|x r IHr]; simpl; [reflexivity | rewrite IHr; reflexivity].
Qed.

Lemma string_append_assoc (a b c : string) :
  ((a ++ b) ++ c)%string = (a ++ b ++ c)%string.
Proof. induction a as [|x a IH]; simpl; [reflexivity | rewrite IH; reflexivity]. Qed.

Lemma string_append_nil (s : string) : (s ++ EmptyString)%string = s.
Proof. induction s as [|c s IH]; simpl; [reflexivity | rewrite IH; reflexivity]. Qed.

Lemma reversed_append (a b : string) :
  Py.reversed (a ++ b) = (Py.reversed b ++ Py.reversed a)%string.
Proof.
  unfold Py.reversed. induction a as [|c a IH]; simpl.
  - rewrite string_append_nil. reflexivity.
  - rewrite rev_onto_append, IH, (rev_onto_append a (String c EmptyString)).
    apply string_append_assoc.
Qed.

Lemma reversed_reversed (s : string) : Py.reversed (Py.reversed s) = s.
Proof.
  induction s as [|c s IH]; [reflexivity|].
  change (Py.reversed (String c s)) with (Py.rev_onto s (String c EmptyString)).
  rewrite rev_onto_append. fold (Py.reversed s).
  rewrite reversed_append, IH. reflexivity.
Qed.

Lemma startswith_split (s p : string) :
  Py.startswith s p = true -> exists rest, s = (p ++ rest)%string.
Proof.
  revert s. induction p as [|a p IH]; intros s; simpl.
  - intros _. exists s. reflexivity.
  - destruct s as [|b s]; [discriminate|]. intros H.
    apply andb_true_iff in H. destruct H as [Hab Hrest].
    apply Ascii.eqb_eq in Hab. subst b.
    destruct (IH s Hrest) as [rest ->]. exists rest. reflexivity.
Qed.

Lemma length_append (a b : string) :
  String.length (a ++ b) = String.length a + String.length b.
Proof. induction a as [|c a IH]; simpl; [reflexivity | rewrite IH; reflexivity]. Qed.

Lemma drop_append (a b : string) : Py.drop (String.length a) (a ++ b) = b.
Proof. induction a as [|c a IH]; simpl; [destruct b; reflexivity | exact IH]. Qed.

Lemma endswith_append (r a : string) : Py.endswith (r ++ a) a = true.
Proof.
  unfold Py.endswith, Py.last_n. rewrite length_append.
  replace (String.length r + String.length a - String.length a) with (String.length r) by lia.
  rewrite drop_append, String.eqb_refl, andb_true_r. apply Nat.leb_le. lia.
Qed.

Lemma startswith_reversed (word add0 : string) :
  Py.startswith (Py.reversed word) (Py.reversed add0) = true ->
  Py.endswith word add0 = true.
Proof.
  intros H. apply startswith_split in H. destruct H as [rest Hrest].
  apply (f_equal Py.reversed) in Hrest.
  rewrite reversed_reversed, reversed_append, reversed_reversed in Hrest.
  rewrite Hrest. apply endswith_append.
Qed.

Lemma suffix_index_lookup_aux (aff : Aff) (word : string) (suf : Affix) (pattern : Pattern) :
  In (suf, pattern) (Affixes_lookup (compile_suffixes aff) (Py.reversed word)) ->
  In suf (all_values (SFX aff))
  /\ pattern = suffix_regexp suf
  /\ Py.startswith (Py.reversed word) (Py.reversed (a_add suf)) = true.
Proof.
  unfold compile_suffixes. intros Hin.
  rewrite (fold_left_ext _
             (fun trie kg =>
                trie_set trie (fst kg) (map (fun x => (x, suffix_regexp x)) (snd kg))))
    in Hin by (intros trie [k g]; reflexivity).
  apply index_lookup in Hin. exact Hin.
Qed.

(** A lookup in the index of suffixes that [compile] builds returns only
    suffixes declared in SFX that the word ends with, each with the pattern
    [suffix_regexp] makes of it. *)
Theorem suffix_index_lookup (aff : Aff) (word : string) (suf : Affix) (pattern : Pattern) :
  In (suf, pattern) (Affixes_lookup (compile_suffixes aff) (Py.reversed word)) ->
  In suf (all_values (SFX aff))
  /\ pattern = suffix_regexp suf
  /\ Py.endswith word (a_add suf) = true.
Proof.
  intros Hin. apply suffix_index_lookup_aux in Hin.
  destruct Hin as [Hsuf [Hpattern Hstarts]].
  repeat split; trivial. apply startswith_reversed. exact Hstarts.
Qed.

(** A lookup in the index of prefixes that [compile] builds returns only
    prefixes declared in PFX that the word starts with, each with the
    pattern [prefix_regexp] makes of it. *)
Theorem prefix_index_lookup (aff : Aff) (word : string) (pref : Affix) (pattern : Pattern) :
  In (pref, pattern) (Affixes_lookup (compile_prefixes aff) word) ->
  In pref (all_values (PFX aff))
  /\ pattern = prefix_regexp pref
  /\ Py.startswith word (a_add pref) = true.
Proof.
  unfold compile_prefixes. intros Hin.
  rewrite (fold_left_ext _
             (fun trie kg =>
                trie_set trie (fst kg) (map (fun x => (x, prefix_regexp x)) (snd kg))))
    in Hin by (intros trie [k g]; reflexivity).
  apply index_lookup in Hin. exact Hin.
Qed.

(** In an analyzer whose index of suffixes is the one [compile] builds, a
    form of [desuffix] with one suffix has a suffix of SFX that the word
    ends with, whose pattern is found in the word, and its stem is the word
    with what the pattern matches replaced by what the suffix strips. *)
Theorem desuffix_stem (re : Re) (self : Analyzer) (word : string)
    (required_flags forbidden_flags : list (option Flag))
    (nested crossproduct : bool) (form : WordForm) :
  suffixes self = compile_suffixes (aff self) ->
  In form (desuffix re self word required_flags forbidden_flags nested crossproduct) ->
  suffix2 form = None ->
  exists s,
    suffix form = Some s
    /\ In s (all_values (SFX (aff self)))
    /\ Py.endswith word (a_add s) = true
    /\ re_search re (suffix_regexp s) word = true
    /\ stem form = re_sub re (suffix_regexp s) (a_strip s) word.
Proof.
  intros Hindex Hin Hone. unfold desuffix in Hin. simpl in Hin.
  apply in_flat_map in Hin. destruct Hin as [[s pattern] [Hsr Hin]].
  apply filter_In in Hsr. destruct Hsr as [Hlookup Hgood]. simpl in Hgood, Hin.
  apply andb_true_iff in Hgood. destruct Hgood as [_ Hsearch].
  rewrite Hindex in Hlookup. apply suffix_index_lookup_aux in Hlookup.
  destruct Hlookup as [Hs [-> Hends]]. apply startswith_reversed in Hends.
  destruct Hin as [<- | Hin].
  - exists s. repeat split; trivial.
  - destruct nested; [contradiction|].
    apply in_map_iff in Hin. destruct Hin as [form2 [<- _]]. discriminate.
Qed.

(** ** Further properties: [allow_nosuggest] without NOSUGGEST *)

Section Nosuggest.

Variable re : Re.
Variable cap : Capitalization.
Variable replchars : string -> list (string * string) -> list Candidate.
Variable self : Analyzer.
Hypothesis no_flag : NOSUGGEST (aff self) = None.

Lemma gen_for_ext {A B} (l : list A) (f g : A -> gen B) :
  (forall x, f x = g x) -> gen_for l f = gen_for l g.
Proof.
  intros Hfg. induction l as [|x l IH]; simpl; [reflexivity|].
  rewrite Hfg, IH. reflexivity.
Qed.

Lemma all_result_ext {A} (f g : A -> result bool) (l : list A) :
  (forall x, f x = g x) -> all_result f l = all_result g l.
Proof.
  intros Hfg. induction l as [|x l IH]; simpl; [reflexivity|].
  rewrite Hfg, IH. reflexivity.
Qed.

Lemma compatible_any (w : Word) (form : WordForm) (compoundpos : option CompoundPos)
    (captype : Cap) (allow_nosuggest : bool) :
  have_compatible_flags cap self w form compoundpos captype allow_nosuggest
  = have_compatible_flags cap self w form compoundpos captype true.
Proof.
  unfold have_compatible_flags. rewrite no_flag. simpl.
  rewrite andb_false_r. reflexivity.
Qed.

Lemma word_forms_any (word : string) (captype : Cap) (compoundpos : option CompoundPos)
    (allow_nosuggest : bool) :
  word_forms re cap self word captype compoundpos allow_nosuggest
  = word_forms re cap self word captype compoundpos true.
Proof.
  assert (Hexact : forall ws form found,
            exact_loop cap self ws form captype compoundpos allow_nosuggest found
            = exact_loop cap self ws form captype compoundpos true found).
  { induction ws as [|w ws IH]; intros form found; simpl; [reflexivity|].
    rewrite compatible_any, !IH. reflexivity. }
  assert (Hcase : forall ws form,
            ignorecase_loop cap self ws form captype compoundpos allow_nosuggest
            = ignorecase_loop cap self ws form captype compoundpos true).
  { induction ws as [|w ws IH]; intros form; simpl; [reflexivity|].
    rewrite compatible_any, !IH. reflexivity. }
  unfold word_forms. generalize (try_affix_forms re self word compoundpos) as forms.
  induction forms as [|f forms IH]; simpl; [reflexivity|].
  unfold form_yields. rewrite Hexact, Hcase, IH. reflexivity.
Qed.

Lemma compound_parts_by_flags_any (fuel : nat) :
  forall word_rest prev_parts allow_nosuggest,
    compound_parts_by_flags re cap self fuel word_rest prev_parts allow_nosuggest
    = compound_parts_by_flags re cap self fuel word_rest prev_parts true.
Proof.
  induction fuel as [|fuel IH]; intros word_rest prev_parts allow_nosuggest; simpl.
  - reflexivity.
  - rewrite (word_forms_any word_rest NO (Some END) allow_nosuggest).
    destruct (stop_splitting self word_rest (List.length prev_parts)); [reflexivity|].
    f_equal. apply gen_for_ext. intros pos.
    rewrite (word_forms_any _ NO _ allow_nosuggest).
    apply gen_for_ext. intros form. rewrite IH. reflexivity.
Qed.

Lemma compound_parts_by_rules_any (fuel : nat) (word_rest : string)
    (prev_parts : list Word) (rules : list CompoundRule) (allow_nosuggest : bool) :
  compound_parts_by_rules re self fuel word_rest prev_parts rules allow_nosuggest
  = compound_parts_by_rules re self fuel word_rest prev_parts rules true.
Proof. destruct fuel; reflexivity. Qed.

(** When the Aff defines no NOSUGGEST flag, [allow_nosuggest] changes
    nothing: [lookup] gives the same result with it off as with it on. *)
Theorem lookup_allow_nosuggest (word : string) (capitalization allow_nosuggest : bool) :
  lookup re cap replchars self word capitalization allow_nosuggest
  = lookup re cap replchars self word capitalization true.
Proof.
  assert (Hparts : forall variant,
            compound_parts re cap replchars self variant allow_nosuggest
            = compound_parts re cap replchars self variant true).
  { intros variant. unfold compound_parts.
    rewrite compound_parts_by_flags_any, compound_parts_by_rules_any. reflexivity. }
  assert (Hfound : forall variant,
            is_found re cap replchars self capitalization allow_nosuggest variant
            = is_found re cap replchars self capitalization true variant).
  { intros variant. unfold is_found, analyze. destruct capitalization; [|reflexivity].
    destruct (cap_variants cap variant) as [captype variants]. cbn [rbind]. f_equal.
    apply gen_for_ext. intros v. unfold analyze_internal.
    rewrite word_forms_any, Hparts. reflexivity. }
  assert (Hloop : forall splittings,
            break_loop re cap replchars self capitalization allow_nosuggest splittings
            = break_loop re cap replchars self capitalization true splittings).
  { induction splittings as [|parts splittings IH]; simpl; [reflexivity|].
    rewrite (all_result_ext _ _ _ Hfound), IH. reflexivity. }
  unfold lookup. rewrite Hfound, Hloop. reflexivity.
Qed.

End Nosuggest.

(** ** The further properties on the fixtures *)

Lemma desuffix_form_shape_witness :
  text workers_form = "workers" /\ prefix workers_form = None /\ prefix2 workers_form = None
  /\ suffix workers_form <> None
  /\ (false = true -> suffix2 workers_form = None).
Proof.
  apply (@desuffix_form_shape MiniRe.engine layered "workers" [] [] false false).
  vm_compute. right. left. reflexivity.
Defined.

Lemma desuffix_second_suffix_flag_witness :
  mem (a_flag s_suffix) (a_flags er_suffix) = true.
Proof.
  apply (@desuffix_second_suffix_flag MiniRe.engine layered "workers" [] [] false false
                                      workers_form).
  - vm_compute. right. left. reflexivity.
  - reflexivity.
  - reflexivity.
Defined.

Lemma desuffix_crossproduct_gate_witness : a_crossproduct ed_suffix = true.
Proof.
  apply (@desuffix_crossproduct_gate MiniRe.engine crossing "locked" [Some "P"] [] false
                                     locked_form).
  - vm_compute. left. reflexivity.
  - left. reflexivity.
Defined.

Lemma desuffix_flags_respected_witness :
  (forall f, In f [Some "P"] -> mem_opt f (a_flags ed_suffix) = true)
  /\ (forall f, In f [Some "X"] -> mem_opt f (a_flags ed_suffix) = false).
Proof.
  apply (@desuffix_flags_respected MiniRe.engine crossing "locked" [Some "P"] [Some "X"]
                                   false false locked_form).
  - vm_compute. left. reflexivity.
  - left. reflexivity.
Defined.

Lemma deprefix_form_shape_witness :
  text unlocked_form = "unlocked" /\ suffix unlocked_form = None
  /\ suffix2 unlocked_form = None
  /\ exists p,
       prefix unlocked_form = Some p
       /\ (forall f, In f [] -> mem_opt f (a_flags p) = true)
       /\ (forall f, In f [] -> mem_opt f (a_flags p) = false)
       /\ forall p2, prefix2 unlocked_form = Some p2 ->
                     false = false
                     /\ mem (a_flag p2) (a_flags p) = true
                     /\ (forall f, In f [] -> mem_opt f (a_flags p2) = true)
                     /\ (forall f, In f [] -> mem_opt f (a_flags p2) = false).
Proof.
  apply (@deprefix_form_shape MiniRe.engine crossing "unlocked" [] [] false).
  vm_compute. left. reflexivity.
Defined.


Lemma try_affix_forms_in_compound_witness :
  try_affix_forms MiniRe.engine layered "workers" (Some MIDDLE)
  = [WordForm_base "workers" "workers"]
  /\ (forall form, In form (try_affix_forms MiniRe.engine layered "workers" (Some BEGIN)) ->
                   suffix form = None /\ suffix2 form = None)
  /\ (forall form, In form (try_affix_forms MiniRe.engine layered "workers" (Some END)) ->
                   prefix form = None /\ prefix2 form = None).
Proof.
  apply try_affix_forms_in_compound. reflexivity.
Defined.

Lemma word_forms_sound_witness :
  In locked_form (try_affix_forms MiniRe.engine crossing "locked" None)
  /\ forbidden_stop crossing locked_form None = false
  /\ exists w,
       (In w (homonyms (dic crossing) (stem locked_form) false)
        \/ In w (homonyms (dic crossing) (stem locked_form) true))
       /\ have_compatible_flags MiniCap.helper crossing w locked_form None NO true = true
       /\ (true = false -> mem_opt (NOSUGGEST (aff crossing)) (w_flags w) = false)
       /\ (forall p, prefix locked_form = Some p ->
                     mem (a_flag p) (w_flags w ++ affix_flags locked_form) = true)
       /\ (forall s, suffix locked_form = Some s ->
                     mem (a_flag s) (w_flags w ++ affix_flags locked_form) = true)
       /\ mem_opt (ONLYINCOMPOUND (aff crossing)) (w_flags w ++ affix_flags locked_form)
          = false.
Proof.
  apply (@word_forms_sound MiniRe.engine MiniCap.helper crossing "locked" NO None true).
  vm_compute. left. reflexivity.
Defined.

Lemma word_forms_allow_nosuggest_witness :
  In (WordForm_base "darn" "darn")
     (word_forms MiniRe.engine MiniCap.helper discreet "darn" NO None true).
Proof.
  apply word_forms_allow_nosuggest. vm_compute. left. reflexivity.
Defined.

Lemma lookup_dictionary_word_witness :
  lookup_in hello "hello" true true = Ok true.
Proof.
  unfold lookup_in.
  apply lookup_dictionary_word with (captype := NO) (others := []) (w := mkWord "hello" []).
  - reflexivity.
  - reflexivity.
  - reflexivity.
  - vm_compute. left. reflexivity.
  - reflexivity.
Defined.

Lemma lookup_empty_word_witness :
  lookup_in hello EmptyString true true = Ok true.
Proof.
  unfold lookup_in. apply lookup_empty_word with (b := false); reflexivity.
Defined.

Lemma try_break_depth_witness :
  1 <= List.length ["foo"; "bar"] <= 11 - 0.
Proof.
  apply (@try_break_depth MiniRe.engine breaking "foo-bar" 0).
  vm_compute. right. left. reflexivity.
Defined.

Lemma lookup_break_accepts_witness :
  lookup_in breaking "foo-bar" true true = Ok true.
Proof.
  unfold lookup_in.
  apply lookup_break_accepts with (b := false) (parts := ["foo"; "bar"]).
  - reflexivity.
  - reflexivity.
  - intros parts' Hin. vm_compute in Hin.
    destruct Hin as [<- | [<- | []]]; eexists; vm_compute; reflexivity.
  - vm_compute. right. left. reflexivity.
  - reflexivity.
Defined.

Lemma compound_parts_by_rules_tiles_witness :
  String.concat EmptyString (map text x_y_z) = "xyz"
  /\ Forall (fun form => form = WordForm_base (text form) (text form)) x_y_z
  /\ (@nil Word = [] \/ COMPOUNDMIN (aff ruled) <= String.length "xyz" ->
      Forall (fun form => COMPOUNDMIN (aff ruled) <= String.length (text form)) x_y_z).
Proof.
  apply (@compound_parts_by_rules_tiles RuleRe.engine ruled (compound_fuel ruled "xyz")
           "xyz" [] (compoundrules ruled) true).
  vm_compute. left. reflexivity.
Defined.

Lemma compound_parts_by_rules_licensed_witness :
  exists entries,
    Forall2 (fun form entry => In entry (homonyms (dic ruled) (text form) false))
            x_y_z entries
    /\ existsb (fun r => fullmatch RuleRe.engine r (map w_flags ([] ++ entries)))
               (compoundrules ruled) = true.
Proof.
  apply (@compound_parts_by_rules_licensed RuleRe.engine ruled (compound_fuel ruled "xyz")
           "xyz" [] (compoundrules ruled) true).
  vm_compute. left. reflexivity.
Defined.

Lemma compound_parts_by_flags_parses_witness :
  exists slices,
    String.concat EmptyString slices = "foobarbaz"
    /\ sliced MiniRe.engine MiniCap.helper two_words true true slices foo_bar_baz
    /\ Forall (fun slice => COMPOUNDMIN (aff two_words) <= String.length slice) slices.
Proof.
  apply (@compound_parts_by_flags_parses MiniRe.engine MiniCap.helper two_words
           (compound_fuel two_words "foobarbaz")).
  vm_compute. left. reflexivity.
Defined.

Lemma compound_parts_by_flags_texts_witness :
  String.concat EmptyString (map text foo_bar_baz) = "foobarbaz".
Proof.
  apply (@compound_parts_by_flags_texts MiniRe.engine MiniCap.helper two_words
           (compound_fuel two_words "foobarbaz") "foobarbaz" [] true).
  - vm_compute. left. reflexivity.
  - intros form Hin. left.
    destruct Hin as [<- | [<- | [<- | []]]]; reflexivity.
Defined.

Lemma compound_parts_short_word_witness :
  compound_parts_in two_words "fooba" true = gen_of_list [].
Proof.
  unfold compound_parts_in. apply compound_parts_short_word. vm_compute. lia.
Defined.

Lemma compound_parts_checked_witness :
  2 <= List.length foo_bar_baz /\ bad_compound_in two_words foo_bar_baz = Ok false.
Proof.
  unfold bad_compound_in.
  apply (@compound_parts_checked MiniRe.engine MiniCap.helper MiniPmt.replchars two_words
           "foobarbaz" true).
  vm_compute. left. reflexivity.
Defined.

Lemma compound_parts_words_max_witness :
  List.length foo_bar_baz <= 2 + 1.
Proof.
  apply (@compound_parts_words_max MiniRe.engine MiniCap.helper MiniPmt.replchars two_words
           "foobarbaz" true).
  - reflexivity.
  - vm_compute. left. reflexivity.
Defined.

Lemma bad_compound_raises_witness :
  IndexError = IndexError
  /\ CHECKCOMPOUNDCASE (aff cased) = true
  /\ exists form,
       In form [WordForm_base "foo" "foo"; WordForm_base EmptyString EmptyString]
       /\ text form = EmptyString.
Proof.
  apply (@bad_compound_raises MiniRe.engine MiniCap.helper MiniPmt.replchars cased).
  reflexivity.
Defined.


Lemma CompoundPattern_init_sides_witness :
  let pattern := mkCompoundPattern "a/X" "b" None "a" (Some "X") "b" None in
  let side stem0 flag0 :=
    (stem0 ++ match flag0 with
              | Some f => String "/" f
              | None => EmptyString
              end)%string in
  cp_left pattern = "a/X"
  /\ cp_right pattern = "b"
  /\ cp_replacement pattern = None
  /\ side (cp_left_stem pattern) (cp_left_flag pattern) = cp_left pattern
  /\ side (cp_right_stem pattern) (cp_right_flag pattern) = cp_right pattern
  /\ Py.has_char "/" (cp_left_stem pattern) = false
  /\ Py.has_char "/" (cp_right_stem pattern) = false.
Proof.
  apply (@CompoundPattern_init_sides ("a/X", "b", None)). reflexivity.
Defined.

Lemma suffix_index_lookup_witness :
  In ed_suffix (all_values (SFX crossing_aff))
  /\ "ed$" = suffix_regexp ed_suffix
  /\ Py.endswith "locked" (a_add ed_suffix) = true.
Proof.
  apply suffix_index_lookup. vm_compute. left. reflexivity.
Defined.

Lemma prefix_index_lookup_witness :
  In un_prefix (all_values (PFX crossing_aff))
  /\ "^un" = prefix_regexp un_prefix
  /\ Py.startswith "unlocked" (a_add un_prefix) = true.
Proof.
  apply prefix_index_lookup. vm_compute. left. reflexivity.
Defined.

Lemma desuffix_stem_witness :
  exists s,
    suffix locked_form = Some s
    /\ In s (all_values (SFX (aff crossing)))
    /\ Py.endswith "locked" (a_add s) = true
    /\ re_search MiniRe.engine (suffix_regexp s) "locked" = true
    /\ stem locked_form = re_sub MiniRe.engine (suffix_regexp s) (a_strip s) "locked".
Proof.
  apply (@desuffix_stem MiniRe.engine crossing "locked" [] [] false false).
  - reflexivity.
  - vm_compute. left. reflexivity.
  - reflexivity.
Defined.

Lemma lookup_allow_nosuggest_witness :
  lookup_in hello "hello" true false = lookup_in hello "hello" true true.
Proof.
  unfold lookup_in. apply lookup_allow_nosuggest. reflexivity.
Defined.

(** ** [word_forms], form by form *)

Section WordFormsLoop.

Variable re : Re.
Variable cap : Capitalization.
Variable self : Analyzer.

Lemma word_forms_loop_through (before rest : list WordForm) (captype : Cap)
    (compoundpos : option CompoundPos) (allow_nosuggest : bool) :
  (forall f, In f before -> forbidden_stop self f compoundpos = false) ->
  word_forms_loop cap self (before ++ rest) captype compoundpos allow_nosuggest
  = word_forms_loop cap self before captype compoundpos allow_nosuggest
    ++ word_forms_loop cap self rest captype compoundpos allow_nosuggest.
Proof.
  induction before as [|f before IH]; simpl; intros Hgo; [reflexivity|].
  rewrite (Hgo f (or_introl eq_refl)).
  rewrite IH by (intros f' Hf'; apply Hgo; right; exact Hf').
  apply app_assoc.
Qed.

(** C8, amended.  When the loop of [word_forms] reaches a form of
    [try_affix_forms] without the forbidden return having fired, on a form
    before it or on the form itself, it yields, between what the forms
    before and the forms after give, the form once for each homonym of its
    stem, compared exactly, that passes [have_compatible_flags]; what the
    homonyms found ignoring case give is yielded when none passes, and only
    then. *)
Theorem word_forms_per_homonym (word : string) (captype : Cap)
    (compoundpos : option CompoundPos) (allow_nosuggest : bool)
    (before after : list WordForm) (form : WordForm) :
  try_affix_forms re self word compoundpos = before ++ form :: after ->
  (forall f, In f (before ++ [form]) -> forbidden_stop self f compoundpos = false) ->
  word_forms re cap self word captype compoundpos allow_nosuggest
  = word_forms_loop cap self before captype compoundpos allow_nosuggest
    ++ match filter (fun w => have_compatible_flags cap self w form compoundpos captype
                                allow_nosuggest)
                    (homonyms (dic self) (stem form) false) with
       | [] => ignorecase_loop cap self (homonyms (dic self) (stem form) true) form
                               captype compoundpos allow_nosuggest
       | w :: ws => repeat form (List.length (w :: ws))
       end
    ++ word_forms_loop cap self after captype compoundpos allow_nosuggest.
Proof.
  intros Hforms Hgo. unfold word_forms. rewrite Hforms.
  rewrite word_forms_loop_through
    by (intros f Hf; apply Hgo; apply in_or_app; left; exact Hf).
  f_equal. cbn [word_forms_loop].
  rewrite (Hgo form) by (apply in_or_app; right; left; reflexivity).
  f_equal. unfold form_yields. rewrite exact_loop_spec. cbv zeta. cbn [fst snd].
  destruct (filter _ (homonyms (dic self) (stem form) false)) as [|w ws]; simpl.
  - reflexivity.
  - rewrite app_nil_r. reflexivity.
Qed.

End WordFormsLoop.

Lemma word_forms_per_homonym_witness :
  word_forms MiniRe.engine MiniCap.helper crossing "locked" NO None true
  = word_forms_loop MiniCap.helper crossing [WordForm_base "locked" "locked"] NO None true
    ++ repeat locked_form 1
    ++ word_forms_loop MiniCap.helper crossing [] NO None true.
Proof.
  apply (@word_forms_per_homonym MiniRe.engine MiniCap.helper crossing "locked" NO None true
           [WordForm_base "locked" "locked"] [] locked_form).
  - reflexivity.
  - intros f [<- | [<- | []]]; reflexivity.
Defined.

